(** * rayx-gen: the HDF5 recompression watcher ([src/compress.py])

    A shallow embedding of [H5Handler] and [main] over an explicit model
    of the world the script runs in: a POSIX file system, a wall clock,
    the stream of names drawn by [tempfile], the activity of other
    processes while the script sleeps, and a trace of the operations the
    script performs.  Library calls ([os.path], [tempfile], [h5py],
    [shutil], [watchdog]) are modelled from their documented behaviour;
    the functions of [compress.py] are transcribed statement by
    statement on top of them. *)

From Stdlib Require Import Ascii QArith Lqa.
From Stdlib Require DecimalString DecimalNat DecimalFacts.
From stdpp Require Import gmap strings list fin_maps.


(** ** Python [str] methods used by the script *)

Module Str.

Definition sep : ascii := "/"%char.

(** [s.startswith(pre)] *)
Fixpoint startswith (s pre : string) {struct pre} : bool :=
  match pre with
  | EmptyString => true
  | String c pre' =>
      match s with
      | EmptyString => false
      | String d s' => if Ascii.eqb c d then startswith s' pre' else false
      end
  end.

(** [s.endswith(suf)] *)
Fixpoint endswith (s suf : string) : bool :=
  if String.eqb s suf then true
  else match s with
       | EmptyString => false
       | String _ s' => endswith s' suf
       end.

(** [s.rstrip("/")] *)
Fixpoint rstrip_sep (s : string) : string :=
  match s with
  | EmptyString => EmptyString
  | String c r =>
      match rstrip_sep r with
      | EmptyString => if Ascii.eqb c sep then EmptyString else String c EmptyString
      | r' => String c r'
      end
  end.

(** [s == "/" * len(s)] *)
Fixpoint all_sep (s : string) : bool :=
  match s with
  | EmptyString => true
  | String c r => Ascii.eqb c sep && all_sep r
  end.

(** ["/" not in s] *)
Fixpoint sep_free (s : string) : bool :=
  match s with
  | EmptyString => true
  | String c r => negb (Ascii.eqb c sep) && sep_free r
  end.

(** [s.split("/")] *)
Fixpoint split (s : string) : list string :=
  match s with
  | EmptyString => [EmptyString]
  | String c r =>
      if Ascii.eqb c sep then EmptyString :: split r
      else match split r with
           | x :: xs => String c x :: xs
           | [] => [String c EmptyString]
           end
  end.

(** ["/".join(comps)] *)
Fixpoint join (comps : list string) : string :=
  match comps with
  | [] => EmptyString
  | [c] => c
  | c :: rest => c +:+ "/" +:+ join rest
  end.

(** [(s[:i], s[i:])] for [i = s.rfind("/") + 1] *)
Fixpoint cut_last_sep (s : string) : string * string :=
  match s with
  | EmptyString => (EmptyString, EmptyString)
  | String c r =>
      let '(h, t) := cut_last_sep r in
      match h with
      | String _ _ => (String c h, t)
      | EmptyString =>
          if Ascii.eqb c sep then (String c EmptyString, t)
          else (EmptyString, String c t)
      end
  end.

(** [s.endswith("/")], by recursion on [s] *)
Fixpoint last_is_sep (s : string) : bool :=
  match s with
  | EmptyString => false
  | String c r =>
      match r with
      | EmptyString => Ascii.eqb c sep
      | String _ _ => last_is_sep r
      end
  end.

End Str.

(** ** [posixpath] *)

Module Path.
Import Str.

(** [os.path.split] *)
Definition split (p : string) : string * string :=
  let '(head, tail) := cut_last_sep p in
  if negb (String.eqb head "") && negb (all_sep head)
  then (rstrip_sep head, tail)
  else (head, tail).

(** [os.path.basename] *)
Definition basename (p : string) : string := snd (cut_last_sep p).

(** [os.path.isabs] *)
Definition isabs (p : string) : bool := startswith p "/".

(** [os.path.join(a, b)] *)
Definition join (a b : string) : string :=
  if startswith b "/" then b
  else if String.eqb a "" || endswith a "/" then a +:+ b
  else a +:+ "/" +:+ b.

(** One iteration of the component loop of [os.path.normpath]; the
    list [new_comps] is kept with its last element first. *)
Definition norm_step (initial_slashes : nat) (new_comps : list string)
    (comp : string) : list string :=
  if String.eqb comp "" || String.eqb comp "." then new_comps
  else if negb (String.eqb comp "..")
          || (Nat.eqb initial_slashes 0 && bool_decide (new_comps = []))
          || match new_comps with
             | top :: _ => String.eqb top ".."
             | [] => false
             end
       then comp :: new_comps
       else match new_comps with
            | _ :: below => below
            | [] => []
            end.

Definition slashes (n : nat) : string :=
  match n with 0 => "" | 1 => "/" | _ => "//" end.

(** [os.path.normpath] *)
Definition normpath (path : string) : string :=
  if String.eqb path "" then "."
  else
    let initial_slashes :=
      if startswith path "/" then
        if startswith path "//" && negb (startswith path "///") then 2 else 1
      else 0 in
    let comps := rev (fold_left (norm_step initial_slashes) (Str.split path) []) in
    let path' := slashes initial_slashes +:+ Str.join comps in
    if String.eqb path' "" then "." else path'.

(** [os.path.abspath], with the working directory made explicit *)
Definition abspath (cwd path : string) : string :=
  normpath (if isabs path then path else join cwd path).

End Path.

(** ** Exceptions and the state-and-exception monad

    Every exception the model raises is an instance of Python's
    [Exception]; a raise keeps the state reached so far, as in Python. *)

Inductive exn :=
| OSError (what : string)
| FileExistsError (what : string)
| TypeError (what : string)
| ValueError (what : string)
| ShutilError (what : string).

(** The outcome of a call: it returned, it raised, or it is still
    running when the fuel given to its loops is used up. *)
Inductive result (A : Type) :=
| Ok (a : A)
| Raise (e : exn)
| Unfinished.
Arguments Ok {A} a.
Arguments Raise {A} e.
Arguments Unfinished {A}.

Definition M (S A : Type) : Type := S -> result A * S.

Definition ret {S A} (a : A) : M S A := fun s => (Ok a, s).
Definition raise {S A} (e : exn) : M S A := fun s => (Raise e, s).
Definition bind {S A B} (c : M S A) (k : A -> M S B) : M S B :=
  fun s =>
    match c s with
    | (Ok a, s') => k a s'
    | (Raise e, s') => (Raise e, s')
    | (Unfinished, s') => (Unfinished, s')
    end.

(** [try: body except Exception as e: handler(e)] *)
Definition try_except {S A} (body : M S A) (handler : exn -> M S A) : M S A :=
  fun s =>
    match body s with
    | (Ok a, s') => (Ok a, s')
    | (Raise e, s') => handler e s'
    | (Unfinished, s') => (Unfinished, s')
    end.

(** [for x in xs: body(x)] *)
Fixpoint for_each {S A} (xs : list A) (body : A -> M S unit) : M S unit :=
  match xs with
  | [] => ret tt
  | x :: rest => bind (body x) (fun _ => for_each rest body)
  end.

Declare Scope monad_scope.
Delimit Scope monad_scope with monad.
Notation "x <- c ;; k" := (bind c (fun x => k))
  (at level 100, c at next level, right associativity) : monad_scope.
Notation "c ;; k" := (bind c (fun _ => k))
  (at level 100, right associativity) : monad_scope.
Local Open Scope monad_scope.

(** ** The part of [h5py] the script uses *)

Module H5.

Inductive codec := Gzip | Lzf.

(** The keyword arguments [compression] and [compression_opts] of
    [create_dataset]; they are what is recorded as the storage
    encoding of the dataset. *)
Record filter := {
  compression : option codec;
  compression_opts : option Z;
}.

(** What [obj[()]] reads and [create_dataset(data=...)] stores: a
    numeric array, with its element type, its shape ([[]] for a scalar)
    and its bytes. *)
Record ndarray := {
  dtype : string;
  shape : list nat;
  buffer : list Byte.byte;
}.

(** A container is a tree of named groups and datasets. *)
#[local] Unset Elimination Schemes.
Inductive obj :=
| Dataset (value : ndarray) (storage : filter)
| Group (members : list (string * obj)).
#[local] Set Elimination Schemes.

Abbreviation members := (list (string * obj)).

(** [Group.visititems]: every object below the group, parents before
    children, each with its name relative to the group. *)
Fixpoint visit (name : string) (o : obj) : list (string * obj) :=
  (name, o) ::
    match o with
    | Dataset _ _ => []
    | Group ms => flat_map (fun m => visit (name +:+ "/" +:+ m.1) m.2) ms
    end.

Definition visit_members (ms : members) : list (string * obj) :=
  flat_map (fun m => visit m.1 m.2) ms.

Definition visititems (root : members) (func : string -> obj -> M members unit)
  : M members unit :=
  for_each (visit_members root) (fun item => func item.1 item.2).

(** Links of a group, by name. *)
Fixpoint get (n : string) (ms : members) : option obj :=
  match ms with
  | [] => None
  | (k, o) :: rest => if String.eqb k n then Some o else get n rest
  end.

Fixpoint set (n : string) (o : obj) (ms : members) : members :=
  match ms with
  | [] => []
  | (k, o') :: rest =>
      if String.eqb k n then (k, o) :: rest else (k, o') :: set n o rest
  end.

(** The components of an HDF5 path name: empty components and ["."]
    do not count. *)
Definition components (name : string) : list string :=
  List.filter (fun c => negb (String.eqb c "") && negb (String.eqb c "."))
    (Str.split name).

(** Follow [path] from a group, creating the groups that are missing
    on the way, and run [at_end] on the members of the group reached.
    Nothing is changed when the walk fails. *)
Fixpoint walk (path : list string) (at_end : members -> result members)
    (ms : members) : result members :=
  match path with
  | [] => at_end ms
  | n :: rest =>
      match get n ms with
      | Some (Group sub) =>
          match walk rest at_end sub with
          | Ok sub' => Ok (set n (Group sub') ms)
          | other => other
          end
      | Some (Dataset _ _) =>
          Raise (TypeError "Incompatible object (Dataset) already exists")
      | None =>
          match walk rest at_end [] with
          | Ok sub' => Ok (ms ++ [(n, Group sub')])
          | other => other
          end
      end
  end.

Definition link (leaf : string) (new : obj) (ms : members) : result members :=
  match get leaf ms with
  | Some _ => Raise (ValueError "name already exists")
  | None => Ok (ms ++ [(leaf, new)])
  end.

Definition commit (r : result members) : M members unit :=
  fun ms =>
    match r with
    | Ok ms' => (Ok tt, ms')
    | Raise e => (Raise e, ms)
    | Unfinished => (Unfinished, ms)
    end.

(** [Group.create_group(name)] *)
Definition create_group (name : string) : M members unit :=
  fun ms =>
    match components name with
    | [] => (Raise (ValueError "name already exists"), ms)
    | path => commit (walk (removelast path) (link (List.last path "") (Group [])) ms) ms
    end.

(** [Group.require_group(name)] *)
Definition require_group (path : list string) : M members unit :=
  fun ms => commit (walk path Ok ms) ms.

(** [filters.fill_dcpl]: what [create_dataset] refuses. *)
Definition fill_dcpl (shape : list nat) (f : filter) : option exn :=
  match shape with
  | [] =>
      if bool_decide (is_Some (compression f))
         || match compression_opts f with
            | Some l => negb (Z.eqb l 0)
            | None => false
            end
      then Some (TypeError "Scalar datasets don't support chunk/filter options")
      else None
  | _ :: _ =>
      match compression f, compression_opts f with
      | Some Gzip, None => None
      | Some Gzip, Some l =>
          if Z.leb 0 l && Z.ltb l 10 then None
          else Some (ValueError "GZIP setting must be an integer from 0-9")
      | Some Lzf, None => None
      | Some Lzf, Some _ => Some (ValueError "LZF compression filter accepts no options")
      | None, None => None
      | None, Some _ => Some (TypeError "Compression method must be specified")
      end
  end.

(** [Group.create_dataset(name, data=data, **kwargs)] *)
Definition create_dataset (name : string) (data : ndarray) (kwargs : filter)
  : M members unit :=
  match components name with
  | [] => raise (ValueError "anonymous dataset")
  | path =>
      require_group (removelast path) ;;
      match fill_dcpl (shape data) kwargs with
      | Some e => raise e
      | None =>
          fun ms =>
            commit (walk (removelast path)
                      (link (List.last path "") (Dataset data kwargs)) ms) ms
      end
  end.

End H5.

(** ** The logical content of a container, apart from its encoding *)

Module Logical.
Import H5.

#[local] Unset Elimination Schemes.
#[local] Set Elimination Schemes.





(** The same tree with every dataset stored under [f]. *)
Fixpoint restore (f : filter) (o : obj) : obj :=
  match o with
  | Dataset value _ => Dataset value f
  | Group ms => Group (map (fun m => (m.1, restore f m.2)) ms)
  end.

Definition restore_members (f : filter) (ms : members) : members :=
  map (fun m => (m.1, restore f m.2)) ms.

(** Link names of an HDF5 file are not empty, are not ["."], contain
    no ["/"], and are unique in their group. *)
Definition name_ok (n : string) : bool :=
  negb (String.eqb n "") && negb (String.eqb n ".") && Str.sep_free n.

Fixpoint distinct (names : list string) : bool :=
  match names with
  | [] => true
  | n :: rest => negb (existsb (String.eqb n) rest) && distinct rest
  end.

Fixpoint well_formed (o : obj) : bool :=
  match o with
  | Dataset _ _ => true
  | Group ms =>
      distinct (map fst ms)
      && forallb (fun m => name_ok m.1 && well_formed m.2) ms
  end.

(** [create_dataset] accepts every dataset of the tree under [f]. *)
Fixpoint accepted (f : filter) (o : obj) : bool :=
  match o with
  | Dataset value _ => bool_decide (fill_dcpl (shape value) f = None)
  | Group ms => forallb (fun m => accepted f m.2) ms
  end.

End Logical.

(** ** The world: file system, clock, other processes, trace *)

Inductive node :=
| Directory
| Regular (content : option H5.members).
    (* [Some root]: a readable HDF5 container; [None]: any other bytes *)

Record inode := {
  st_size : N;
  st_node : node;
}.

(** What other processes do to the file system while the script sleeps. *)
Inductive activity :=
| Quiet
| Put (path : string) (i : inode)
| Unlink (path : string).

(** The status lines the script prints. *)
Inductive line :=
| LogInfo (src_path tmp_path : string)
| LogDone (src_path : string)
| LogWait (filepath : string)
| LogError (path : string) (e : exn)
| LogWatching (workdir : string) (idle_timeout : Q)
| LogIdle (idle : Q)
| LogInterrupt.

Inductive mode := ModeR | ModeW.

(** The operations the script performs, in the order it performs them. *)
Inductive event :=
| EvGetsize (path : string) (size : option N)
| EvSleep (seconds : Q)
| EvStamp (t : Q)
| EvMkstemp (path : string)
| EvH5File (path : string) (m : mode)
| EvH5Close (path : string)
| EvMove (src dst : string)
| EvPrint (l : line).

Record world := {
  fs : gmap string inode;          (* keyed by absolute, normalised path *)
  cwd : string;
  clock : Q;                       (* what [time.time()] returns *)
  last_event_time : Q;             (* cell 0 of the list shared by handler and [main] *)
  rng : list (list nat);           (* draws of [tempfile]'s name generator *)
  others : list activity;          (* one entry per sleep of the script *)
  trace : list event;
}.

Definition with_fs (f : gmap string inode -> gmap string inode) (w : world) : world :=
  {| fs := f (fs w); cwd := cwd w; clock := clock w;
     last_event_time := last_event_time w; rng := rng w;
     others := others w; trace := trace w |}.

Definition with_rng (draws : list (list nat)) (w : world) : world :=
  {| fs := fs w; cwd := cwd w; clock := clock w;
     last_event_time := last_event_time w; rng := draws;
     others := others w; trace := trace w |}.

Definition with_last_event_time (t : Q) (w : world) : world :=
  {| fs := fs w; cwd := cwd w; clock := clock w;
     last_event_time := t; rng := rng w;
     others := others w; trace := trace w |}.

(** The clock advances by [seconds] and the other processes take their
    next turn. *)
Definition elapse (seconds : Q) (w : world) : world :=
  {| fs := fs w; cwd := cwd w; clock := (clock w + seconds)%Q;
     last_event_time := last_event_time w; rng := rng w;
     others := tl (others w); trace := trace w |}.

Definition emit (e : event) (w : world) : world :=
  {| fs := fs w; cwd := cwd w; clock := clock w;
     last_event_time := last_event_time w; rng := rng w;
     others := others w; trace := trace w ++ [e] |}.

Definition resolve (w : world) (path : string) : string :=
  Path.abspath (cwd w) path.

Definition empty_file : inode := {| st_size := 0; st_node := Regular None |}.

(** What a path leads to. *)
Definition is_dir (i : option inode) : bool :=
  match i with
  | Some {| st_node := Directory |} => true
  | _ => false
  end.

Definition container (i : option inode) : option H5.members :=
  match i with
  | Some {| st_node := Regular (Some root) |} => Some root
  | _ => None
  end.

Definition act (a : activity) (m : gmap string inode) : gmap string inode :=
  match a with
  | Quiet => m
  | Put path i => <[path := i]> m
  | Unlink path => delete path m
  end.

Module Os.

(** [os.path.getsize] *)
Definition getsize (path : string) : M world N :=
  fun w =>
    match fs w !! resolve w path with
    | Some i => (Ok (st_size i), emit (EvGetsize path (Some (st_size i))) w)
    | None => (Raise (OSError "No such file or directory"), emit (EvGetsize path None) w)
    end.

(** [time.sleep]: the clock advances and the other processes run. *)
Definition sleep (seconds : Q) : M world unit :=
  fun w =>
    (Ok tt,
     emit (EvSleep seconds)
       (elapse seconds (with_fs (act (hd Quiet (others w))) w))).

(** [time.time] *)
Definition time : M world Q := fun w => (Ok (clock w), w).

(** [print] *)
Definition print (l : line) : M world unit :=
  fun w => (Ok tt, emit (EvPrint l) w).

(** [os.path.isdir] *)
Definition isdir (path : string) : M world bool :=
  fun w => (Ok (is_dir (fs w !! resolve w path)), w).

(** [os.path.exists] *)
Definition exists_ (path : string) : M world bool :=
  fun w => (Ok (bool_decide (is_Some (fs w !! resolve w path))), w).

End Os.

Module Tempfile.

(** [tempfile.template] and the alphabet of [_RandomNameSequence] *)
Definition template : string := "tmp".
Definition characters : list ascii :=
  String.list_ascii_of_string "abcdefghijklmnopqrstuvwxyz0123456789_".

Definition choose (i : nat) : ascii :=
  nth (i mod length characters) characters "a"%char.

Definition name_of (draw : list nat) : string :=
  String.string_of_list_ascii (map choose draw).

(** The loop of [_mkstemp_inner]: the first drawn name that does not
    exist yet is created, empty. *)
Fixpoint mkstemp_inner (dir pre suf : string) (draws : list (list nat))
    (w : world) : result string * world :=
  match draws with
  | [] =>
      (Raise (FileExistsError "No usable temporary file name found"),
       with_rng [] w)
  | draw :: rest =>
      let file := Path.join dir (pre +:+ name_of draw +:+ suf) in
      match fs w !! resolve w file with
      | Some _ => mkstemp_inner dir pre suf rest w
      | None =>
          (Ok file,
           emit (EvMkstemp file)
             (with_rng rest (with_fs (insert (resolve w file) empty_file) w)))
      end
  end.

(** [tempfile.mkstemp(suffix=..., dir=...)]; the descriptor it also
    returns is closed at once by the script and is left out. *)
Definition mkstemp (suffix dir : string) : M world string :=
  fun w =>
    let dir' := resolve w dir in
    if is_dir (fs w !! dir') then mkstemp_inner dir' template suffix (rng w) w
    else (Raise (OSError "No such file or directory"), w).

End Tempfile.

Module Shutil.

(** [os.rename] of a regular file: the destination is replaced in one
    step. *)
Definition rename (src dst : string) : M world unit :=
  fun w =>
    match fs w !! resolve w src with
    | None => (Raise (OSError "No such file or directory"), w)
    | Some i =>
        (Ok tt,
         emit (EvMove src dst)
           (with_fs (fun m => <[resolve w dst := i]> (delete (resolve w src) m)) w))
    end.

(** [shutil.move(src, dst)] for a regular file [src]; when the rename
    fails because [src] is gone, so does the copy it falls back on. *)
Definition move (src dst : string) : M world unit :=
  is_dir <- Os.isdir dst ;;
  real_dst <- (if is_dir : bool then
                 let real_dst := Path.join dst (Path.basename src) in
                 taken <- Os.exists_ real_dst ;;
                 if taken : bool
                 then raise (ShutilError "Destination path already exists")
                 else ret real_dst
               else ret dst) ;;
  rename src real_dst.

End Shutil.

(** ** [compress.py] *)

Section Compress.

(** The size in bytes of the file [h5py] writes for a container; it
    depends on the storage encoding and is left open. *)
Variable h5_file_size : H5.members -> N.

(** [h5py.File(path, 'r')] *)
Definition h5_file_r (path : string) : M world H5.members :=
  fun w =>
    match container (fs w !! resolve w path) with
    | Some root => (Ok root, emit (EvH5File path ModeR) w)
    | None => (Raise (OSError "Unable to open file"), emit (EvH5File path ModeR) w)
    end.

Definition h5_inode (root : H5.members) : inode :=
  {| st_size := h5_file_size root; st_node := Regular (Some root) |}.

Definition h5_store (path : string) (root : H5.members) (w : world) : world :=
  with_fs (insert (resolve w path) (h5_inode root)) w.

(** [h5py.File(path, 'w')]: the file is created, or truncated, as an
    empty container. *)
Definition h5_file_w (path : string) : M world unit :=
  fun w =>
    if is_dir (fs w !! resolve w path)
    then (Raise (OSError "Unable to create file"), emit (EvH5File path ModeW) w)
    else (Ok tt, h5_store path [] (emit (EvH5File path ModeW) w)).

(** Leaving the [with] block closes the destination, which writes what
    was created in it, whether the block returned or raised. *)
Definition h5_close (path : string) (root : H5.members) : M world unit :=
  fun w => (Ok tt, h5_store path root (emit (EvH5Close path) w)).

(** [with h5py.File(src_path, 'r') as src, h5py.File(tmp_path, 'w') as dst: body] *)
Definition with_h5_files (src_path tmp_path : string)
    (body : H5.members -> M H5.members unit) : M world unit :=
  src <- h5_file_r src_path ;;
  h5_file_w tmp_path ;;
  fun w =>
    let '(r, dst) := body src [] in
    let '(_, w') := h5_close tmp_path dst w in
    (r, w').

Record H5Handler := {
  compression : option H5.codec;
  compression_level : Z;
}.

(** [H5Handler.is_stable] *)
Definition is_stable (path : string) (wait : Q) : M world bool :=
  size1 <- Os.getsize path ;;
  Os.sleep wait ;;
  size2 <- Os.getsize path ;;
  ret (N.eqb size1 size2).

(** The keyword arguments [_recurse] builds for [create_dataset] *)
Definition kwargs (self : H5Handler) : H5.filter :=
  {| H5.compression := compression self;
     H5.compression_opts :=
       match compression self with
       | Some H5.Gzip => Some (compression_level self)
       | _ => None
       end |}.

(** The callback [_recurse] of [compress_and_replace] *)
Definition _recurse (self : H5Handler) (name : string) (o : H5.obj)
  : M H5.members unit :=
  match o with
  | H5.Dataset data _ => H5.create_dataset name data (kwargs self)
  | H5.Group _ => H5.create_group name
  end.

(** [H5Handler.compress_and_replace] *)
Definition compress_and_replace (self : H5Handler) (src_path : string)
  : M world unit :=
  let '(dirname, fname) := Path.split src_path in
  tmp_path <- Tempfile.mkstemp ".h5" dirname ;;
  Os.print (LogInfo src_path tmp_path) ;;
  with_h5_files src_path tmp_path
    (fun src => H5.visititems src (_recurse self)) ;;
  Shutil.move tmp_path src_path ;;
  Os.print (LogDone src_path).

(** A [watchdog] file-system event *)
Record FileSystemEvent := {
  src_path : string;
  is_directory : bool;
}.

(** The loop [while not self.is_stable(filepath): ...] of
    [on_created], run for at most [fuel] iterations. *)
Fixpoint wait_until_stable (fuel : nat) (filepath : string) : M world unit :=
  match fuel with
  | O => fun w => (Unfinished, w)
  | S fuel' =>
      stable <- is_stable filepath 1 ;;
      if stable : bool then ret tt
      else
        Os.print (LogWait filepath) ;;
        Os.sleep (1 # 2) ;;
        wait_until_stable fuel' filepath
  end.

(** [self.last_event_time[0] = t] *)
Definition stamp (t : Q) : M world unit :=
  fun w => (Ok tt, emit (EvStamp t) (with_last_event_time t w)).

(** [H5Handler.on_created] *)
Definition on_created (self : H5Handler) (fuel : nat) (event : FileSystemEvent)
  : M world unit :=
  if is_directory event then ret tt
  else
    let filename := Path.basename (src_path event) in
    if negb (Str.endswith filename ".h5") || Str.startswith filename "tmp"
    then ret tt
    else
      now <- Os.time ;;
      stamp now ;;
      let filepath := src_path event in
      wait_until_stable fuel filepath ;;
      try_except (compress_and_replace self filepath)
        (fun e => Os.print (LogError filepath e)).

(** The branch [if args.once:] of [main]; [walk] is what
    [os.walk(args.workdir)] yields. *)
Definition compress_existing (handler : H5Handler)
    (walk : list (string * list string * list string)) : M world unit :=
  for_each walk (fun entry =>
    let '(root, _, files) := entry in
    for_each files (fun fname =>
      if negb (Str.endswith fname ".h5") || Str.startswith fname "tmp"
      then ret tt
      else
        let path := Path.join root fname in
        try_except (compress_and_replace handler path)
          (fun e => Os.print (LogError path e)))).

(** *** [main] *)

Inductive choice := ChoiceGzip | ChoiceLzf | ChoiceNone.

(** The parsed command line *)
Record Args := {
  workdir : string;
  idle_timeout : Q;
  arg_compression : choice;
  level : Z;
  once : bool;
}.

Definition make_handler (args : Args) : H5Handler :=
  {| compression :=
       match arg_compression args with
       | ChoiceGzip => Some H5.Gzip
       | ChoiceLzf => Some H5.Lzf
       | ChoiceNone => None
       end;
     compression_level := level args |}.

(** The observer thread of [watchdog] hands each event to the handler
    and ends when the handler raises; the main thread polls the idle
    time once per second.  A schedule lists, in the order they take
    place, the events the observer delivers, the wake-ups of the main
    thread and an interrupt from the keyboard. *)
Inductive occurrence :=
| Created (event : FileSystemEvent) (fuel : nat)
| Wake
| KeyboardInterrupt.

Inductive observer_state :=
| Dispatching
| Crashed (e : exn)
| Blocked.

Inductive main_state :=
| Watching
| IdleShutdown
| InterruptShutdown.

Record system := {
  sys_world : world;
  sys_observer : observer_state;
  sys_main : main_state;
}.

(** [EventDispatcher.run] on one queued event *)
Definition dispatch (handler : H5Handler) (fuel : nat) (event : FileSystemEvent)
    (s : system) : system :=
  match sys_observer s with
  | Dispatching =>
      let '(r, w) := on_created handler fuel event (sys_world s) in
      {| sys_world := w;
         sys_observer :=
           match r with
           | Ok _ => Dispatching
           | Raise e => Crashed e
           | Unfinished => Blocked
           end;
         sys_main := sys_main s |}
  | _ => s
  end.

(** One iteration of [while True:] in [main] *)
Definition poll (args : Args) (s : system) : system :=
  let '(_, w) := Os.sleep 1 (sys_world s) in
  let idle := (clock w - last_event_time w)%Q in
  if negb (Qle_bool idle (idle_timeout args)) then
    {| sys_world := emit (EvPrint (LogIdle idle)) w;
       sys_observer := sys_observer s;
       sys_main := IdleShutdown |}
  else
    {| sys_world := w; sys_observer := sys_observer s; sys_main := Watching |}.

Definition step (args : Args) (handler : H5Handler) (s : system)
    (o : occurrence) : system :=
  match sys_main s with
  | Watching =>
      match o with
      | Created event fuel => dispatch handler fuel event s
      | Wake => poll args s
      | KeyboardInterrupt =>
          {| sys_world := emit (EvPrint LogInterrupt) (sys_world s);
             sys_observer := sys_observer s;
             sys_main := InterruptShutdown |}
      end
  | _ => s
  end.

Definition watch (args : Args) (handler : H5Handler)
    (schedule : list occurrence) (s : system) : system :=
  fold_left (step args handler) schedule s.

Inductive exit :=
| SystemExit (message : string)
| Returned
| StillWatching (o : observer_state).

(** [main], after the command line is parsed *)
Definition main (args : Args)
    (walk : list (string * list string * list string))
    (schedule : list occurrence) (w : world) : exit * world :=
  match Os.isdir (workdir args) w with
  | (Ok true, _) =>
      let w0 := with_last_event_time (clock w) w in
      let handler := make_handler args in
      if once args then
        let '(_, w1) := compress_existing handler walk w0 in
        (Returned, w1)
      else
        let s0 :=
          {| sys_world :=
               emit (EvPrint (LogWatching (workdir args) (idle_timeout args))) w0;
             sys_observer := Dispatching;
             sys_main := Watching |} in
        let s := watch args handler schedule s0 in
        (match sys_main s with
         | Watching => StillWatching (sys_observer s)
         | _ => Returned
         end, sys_world s)
  | _ => (SystemExit "workdir does not exist or is not a directory", w)
  end.

End Compress.

(** ** [rml.py]: perturbation of the [worldPosition] of an RML file *)

(** *** Python values the script uses *)

Module Py.

(** [str(n)] for a natural number *)
Definition str_nat (n : nat) : string :=
  DecimalString.NilZero.string_of_uint (Nat.to_uint n).

(** [str(z)] for an [int] *)
Definition str (z : Z) : string :=
  match z with
  | Zneg p => "-" +:+ str_nat (Pos.to_nat p)
  | _ => str_nat (Z.to_nat z)
  end.

Fixpoint zeros (n : nat) : string :=
  match n with
  | O => ""
  | S n' => String "0" (zeros n')
  end.

(** [s.zfill(width)] *)
Definition zfill (s : string) (width : nat) : string :=
  let n := String.length s in
  if (width <=? n)%nat then s
  else
    match s with
    | String c rest =>
        if Ascii.eqb c "+" || Ascii.eqb c "-"
        then String c (zeros (width - n) +:+ rest)
        else zeros (width - n) +:+ s
    | EmptyString => zeros (width - n)
    end.

(** [l[i]] for a list and an [int]: the position counted from the
    front and the item there, or nothing where Python raises
    [IndexError]. *)
Definition index {A} (l : list A) (i : Z) : option (nat * A) :=
  let n := Z.of_nat (length l) in
  let j := if (i <? 0)%Z then (i + n)%Z else i in
  if (0 <=? j)%Z && (j <? n)%Z
  then match l !! Z.to_nat j with
       | Some x => Some (Z.to_nat j, x)
       | None => None
       end
  else None.

End Py.

(** *** The part of [xml.etree.ElementTree] the script uses *)

Module Xml.

#[local] Unset Elimination Schemes.
Inductive element :=
| Element (tag : string) (attrib : list (string * string))
    (text tail : option string) (children : list element).
#[local] Set Elimination Schemes.

Definition tag (e : element) : string :=
  match e with Element t _ _ _ _ => t end.
Definition attrib (e : element) : list (string * string) :=
  match e with Element _ a _ _ _ => a end.
Definition text (e : element) : option string :=
  match e with Element _ _ x _ _ => x end.
Definition children (e : element) : list element :=
  match e with Element _ _ _ _ cs => cs end.

Definition set_text (s : string) (e : element) : element :=
  match e with Element t a _ tl cs => Element t a (Some s) tl cs end.
Definition set_children (cs : list element) (e : element) : element :=
  match e with Element t a x tl _ => Element t a x tl cs end.

(** [elem.get(key)] *)
Fixpoint get (key : string) (a : list (string * string)) : option string :=
  match a with
  | [] => None
  | (k, v) :: rest => if String.eqb k key then Some v else get key rest
  end.

(** [elem.find(tag)]: the first child with that tag, and its index *)
Fixpoint find_child_from (i : nat) (t : string) (cs : list element)
  : option (nat * element) :=
  match cs with
  | [] => None
  | c :: rest =>
      if String.eqb (tag c) t then Some (i, c) else find_child_from (S i) t rest
  end.

Definition find_child (t : string) (e : element) : option (nat * element) :=
  find_child_from 0 t (children e).

(** The elements below [e] in document order, each with the indices
    that lead to it from [e]. *)
Fixpoint descendants (e : element) : list (list nat * element) :=
  match e with
  | Element _ _ _ _ cs =>
      (fix below (i : nat) (cs : list element) : list (list nat * element) :=
         match cs with
         | [] => []
         | c :: rest =>
             ([i], c) :: map (fun d => (i :: d.1, d.2)) (descendants c)
               ++ below (S i) rest
         end) 0%nat cs
  end.

(** [elem.find('.//t[@key="value"]')] *)
Definition find_descendant (t key value : string) (e : element)
  : option (list nat * element) :=
  List.find (fun d =>
    String.eqb (tag d.2) t && bool_decide (get key (attrib d.2) = Some value))
    (descendants e).

(** The element a list of indices leads to. *)
Fixpoint get_at (loc : list nat) (e : element) : option element :=
  match loc with
  | [] => Some e
  | i :: rest =>
      match children e !! i with
      | Some c => get_at rest c
      | None => None
      end
  end.

(** The tree after the element at [loc] has been changed by [f], in
    place. *)
Fixpoint update_at (loc : list nat) (f : element -> option element)
    (e : element) : option element :=
  match loc with
  | [] => f e
  | i :: rest =>
      match children e !! i with
      | Some c =>
          match update_at rest f c with
          | Some c' => Some (set_children (<[i := c']> (children e)) e)
          | None => None
          end
      | None => None
      end
  end.

End Xml.

(** *** The script *)

Module Rml.

(** What the script raises; [sys.exit(message)] raises [SystemExit]. *)
Inductive error :=
| SystemExit (message : string)
| IndexError
| ValueError
| TypeError.

Section Script.

(** Python's [float], with [float(s)] (nothing where it raises
    [ValueError]), the format [f"{x}"], the values [v - 1] and [v + 1],
    and the [k]-th draw of [np.random.uniform(low, high)]. *)
Variable F : Type.
Variable parse_float : string -> option F.
Variable format_float : F -> string.
Variable minus_one plus_one : F -> F.
Variable uniform : nat -> F -> F -> F.

(** The lines the script prints. *)
Inductive line :=
| Starting
| Input (input_file : string)
| ParsedRoot (tag : string) (attrib : list (string * string))
| BeamlineElements (count : Z)
| Selected (idx : Z) (tag : string) (attrib : list (string * string))
| Original (x y z : F)
| Sampling (n : Z)
| Intervals (ivs : list (F * F))
| SamplingDone
| Saving (count : nat)
| SavingInto (count : nat) (n_subdirs : Z)
| Saved (i : nat)
| AllDone.

(** What the script does to its surroundings, in order. *)
Inductive op :=
| Print (l : line)
| Makedirs (path : string)
| Write (path : string) (doc : Xml.element).

Record state := {
  doc : Xml.element;        (* the root of the parsed tree, changed in place *)
  drawn : nat;              (* draws made from the random generator *)
  ops : list op;
}.

Definition R (A : Type) : Type := state -> (error + A) * state.

Definition ret {A} (a : A) : R A := fun s => (inr a, s).
Definition raise {A} (e : error) : R A := fun s => (inl e, s).
Definition bind {A B} (c : R A) (k : A -> R B) : R B :=
  fun s =>
    match c s with
    | (inr a, s') => k a s'
    | (inl e, s') => (inl e, s')
    end.

Definition perform (o : op) : R unit :=
  fun s => (inr tt, {| doc := doc s; drawn := drawn s; ops := ops s ++ [o] |}).

Definition print (l : line) : R unit := perform (Print l).

(** [float(t.text)] *)
Definition to_float (t : Xml.element) : error + F :=
  match Xml.text t with
  | None => inl TypeError
  | Some s =>
      match parse_float s with
      | Some v => inr v
      | None => inl ValueError
      end
  end.

(** [x, y, z = map(lambda t: float(t.text), wp)]: the items are
    converted one by one, a fourth one too before the unpacking fails. *)
Definition unpack3 (items : list Xml.element) : error + F * F * F :=
  match items with
  | a :: b :: c :: rest =>
      match to_float a with
      | inl e => inl e
      | inr x =>
          match to_float b with
          | inl e => inl e
          | inr y =>
              match to_float c with
              | inl e => inl e
              | inr z =>
                  match rest with
                  | [] => inr (x, y, z)
                  | d :: _ =>
                      match to_float d with
                      | inl e => inl e
                      | inr _ => inl ValueError
                      end
                  end
              end
          end
      end
  | [a; b] =>
      match to_float a with
      | inl e => inl e
      | inr _ => match to_float b with inl e => inl e | inr _ => inl ValueError end
      end
  | [a] => match to_float a with inl e => inl e | inr _ => inl ValueError end
  | [] => inl ValueError
  end.

(** [extract_world_position(tree)]; the element [wp] it returns is
    given by the indices that lead to it from the root. *)
Definition extract_world_position : R (list nat * (F * F * F) * Z) :=
  fun s =>
    let root := doc s in
    bind (print (ParsedRoot (Xml.tag root) (Xml.attrib root))) (fun _ =>
    match Xml.find_child "beamline" root with
    | None => raise (SystemExit "Error: no beamline element.")
    | Some (b, beam) =>
        let count := Z.of_nat (length (Xml.children beam)) in
        bind (print (BeamlineElements count)) (fun _ =>
        let idx := (count - 2)%Z in
        match Py.index (Xml.children beam) idx with
        | None => raise IndexError
        | Some (k, elem) =>
            bind (print (Selected idx (Xml.tag elem) (Xml.attrib elem))) (fun _ =>
            match Xml.find_descendant "param" "id" "worldPosition" elem with
            | None => raise (SystemExit "Error: no worldPosition param.")
            | Some (rel, wp) =>
                match unpack3 (Xml.children wp) with
                | inl e => raise e
                | inr (x, y, z) =>
                    bind (print (Original x y z)) (fun _ =>
                    ret (b :: k :: rel, (x, y, z), idx))
                end
            end)
        end)
    end) s.

(** One point of [generate_samples]: a draw for each coordinate. *)
Definition draw_point (coords : F * F * F) : R (F * F * F) :=
  fun s =>
    let '(x, y, z) := coords in
    let k := drawn s in
    (inr (uniform k (minus_one x) (plus_one x),
          uniform (S k) (minus_one y) (plus_one y),
          uniform (S (S k)) (minus_one z) (plus_one z)),
     {| doc := doc s; drawn := S (S (S k)); ops := ops s |}).

Fixpoint sample_loop (count : nat) (coords : F * F * F)
    (samples : list (F * F * F)) : R (list (F * F * F)) :=
  match count with
  | O => ret samples
  | S count' =>
      bind (draw_point coords) (fun pt =>
      sample_loop count' coords (samples ++ [pt]))
  end.

(** [generate_samples(coords, n)] *)
Definition generate_samples (coords : F * F * F) (n : Z) : R (list (F * F * F)) :=
  bind (print (Sampling n)) (fun _ =>
  bind (sample_loop (Z.to_nat n) coords []) (fun samples =>
  let '(x, y, z) := coords in
  bind (print (Intervals [(minus_one x, plus_one x); (minus_one y, plus_one y);
                          (minus_one z, plus_one z)])) (fun _ =>
  bind (print SamplingDone) (fun _ =>
  ret samples)))).

(** [wp_elem[j].text = value] *)
Definition assign_text (wp_elem : list nat) (j : nat) (value : string) : R unit :=
  fun s =>
    match Xml.update_at (wp_elem ++ [j]) (fun t => Some (Xml.set_text value t)) (doc s) with
    | Some d => (inr tt, {| doc := d; drawn := drawn s; ops := ops s |})
    | None => (inl IndexError, s)
    end.

(** [tree.write(path)] *)
Definition write (path : string) : R unit :=
  fun s => perform (Write path (doc s)) s.

Definition subdir_idx (i : nat) (n_subdirs : Z) (count : nat) : Z :=
  (Z.of_nat i * n_subdirs / Z.of_nat count)%Z.

Definition file_name (i width : nat) (inp_name : string) : string :=
  Py.zfill (Py.str (Z.of_nat i)) width +:+ "_" +:+ inp_name.

(** The body of the loop of [save_samples], from sample [i] on. *)
Fixpoint save_loop (wp_elem : list nat) (out_dir inp_name : string)
    (n_subdirs : Z) (count width : nat) (i : nat) (rest : list (F * F * F))
  : R unit :=
  match rest with
  | [] => ret tt
  | (x, y, z) :: rest' =>
      bind (assign_text wp_elem 0 (format_float x)) (fun _ =>
      bind (assign_text wp_elem 1 (format_float y)) (fun _ =>
      bind (assign_text wp_elem 2 (format_float z)) (fun _ =>
      let subdir_path :=
        Path.join out_dir ("subdir_" +:+ Py.str (subdir_idx i n_subdirs count)) in
      bind (perform (Makedirs subdir_path)) (fun _ =>
      let path := Path.join subdir_path (file_name i width inp_name) in
      bind (write path) (fun _ =>
      bind (if (i mod 1000 =? 0)%nat then print (Saved i) else ret tt) (fun _ =>
      save_loop wp_elem out_dir inp_name n_subdirs count width (S i) rest'))))))
  end.

(** [save_samples(tree, wp_elem, samples, out_dir, inp_name, n_subdirs)] *)
Definition save_samples (wp_elem : list nat) (samples : list (F * F * F))
    (out_dir inp_name : string) (n_subdirs : Z) : R unit :=
  bind (perform (Makedirs out_dir)) (fun _ =>
  let width := String.length (Py.str (Z.of_nat (length samples) - 1)) in
  bind (print (Saving (length samples))) (fun _ =>
  bind (perform (Makedirs out_dir)) (fun _ =>
  let width := String.length (Py.str (Z.of_nat (length samples) - 1)) in
  bind (print (SavingInto (length samples) n_subdirs)) (fun _ =>
  bind (save_loop wp_elem out_dir inp_name n_subdirs (length samples) width 0 samples)
    (fun _ =>
  print AllDone))))).

(** The parsed command line *)
Record Args := {
  input_file : string;
  n_samples : Z;
  n_subdirs : Z;
  output_dir : string;
  max_tries_mult : Z;
}.

(** [main], from the tree [ET.parse(args.input_file)] has returned *)
Definition main (args : Args) : R unit :=
  bind (print Starting) (fun _ =>
  bind (print (Input (input_file args))) (fun _ =>
  bind extract_world_position (fun extracted =>
  let '(wp_elem, coords, idx) := extracted in
  bind (generate_samples coords (n_samples args)) (fun samples =>
  save_samples wp_elem samples (output_dir args)
    (Path.basename (input_file args)) (n_subdirs args))))).

End Script.

Arguments Print {F}.
Arguments Makedirs {F}.
Arguments Write {F}.
Arguments doc {F}.
Arguments drawn {F}.
Arguments ops {F}.
Arguments ret {F A}.
Arguments raise {F A}.
Arguments bind {F A B}.
Arguments perform {F}.
Arguments print {F}.
Arguments to_float {F}.
Arguments unpack3 {F}.
Arguments extract_world_position {F}.
Arguments draw_point {F}.
Arguments sample_loop {F}.
Arguments generate_samples {F}.
Arguments assign_text {F}.
Arguments write {F}.
Arguments save_loop {F}.
Arguments save_samples {F}.
Arguments main {F}.

End Rml.

(** ** Notions used in the statements *)

(** A directory name as [normpath] returns it: not empty, and either
    made of separators only or not ending in one. *)
Definition dir_shape (d : string) : Prop :=
  d <> "" /\ (Str.all_sep d = true \/ Str.last_is_sep d = false).

(** Components of [normpath]: not empty and without separator. *)
Definition comp_ok (c : string) : Prop := c <> "" /\ Str.sep_free c = true.

(** Running an operation on the group [n] that was linked last. *)
Definition below (n : string) (acc : H5.members) (r : result unit * H5.members)
  : result unit * H5.members :=
  (r.1, acc ++ [(n, H5.Group r.2)]).

(** What [visititems] with [_recurse] builds: the source tree, stored
    under the handler's settings, when [create_dataset] accepts every
    dataset; an exception otherwise. *)
Definition rebuilt (self : H5Handler) (ok : bool)
    (run : result unit * H5.members) (expected : H5.members) : Prop :=
  if ok then run = (Ok tt, expected)
  else exists e ms', run = (Raise e, ms').

(** [w'] is reached from [w] by operations of the script whose trace
    events all satisfy [P]: the working directory and the time-stamp
    cell are as before and the trace has grown by such events. *)
Definition advances (P : event -> Prop) (w w' : world) : Prop :=
  cwd w' = cwd w /\ last_event_time w' = last_event_time w /\
  exists evs, trace w' = trace w ++ evs /\ Forall P evs.

Definition emits {A} (P : event -> Prop) (c : M world A) : Prop :=
  forall w, advances P w (c w).2.

(** The events of the stability wait. *)
Definition waiting (e : event) : Prop :=
  match e with
  | EvGetsize _ _ | EvSleep _ | EvPrint (LogWait _) => True
  | _ => False
  end.

(** The events of recompression and publication. *)
Definition compressing (e : event) : Prop :=
  match e with
  | EvMkstemp _ | EvH5File _ _ | EvH5Close _ | EvMove _ _
  | EvPrint (LogInfo _ _) | EvPrint (LogDone _) => True
  | _ => False
  end.

(** The temporary file of a run on [src_path] in [w]: a fresh name in
    the directory of [src_path]. *)
Definition temp_for (w : world) (src_path tmp_path : string) : Prop :=
  (exists draw,
     tmp_path =
       Path.join (resolve w (Path.split src_path).1)
         (Tempfile.template +:+ Tempfile.name_of draw +:+ ".h5")) /\
  fs w !! resolve w tmp_path = None.

(** The four ways a run of [compress_and_replace] ends. *)
Inductive run (size : H5.members -> N) (self : H5Handler) (src_path : string)
    (w : world) : result unit -> world -> Prop :=
| NoTempFile e w' :
    is_dir (fs w !! resolve w (Path.split src_path).1) = false \/
    (forall draw, In draw (rng w) ->
       is_Some (fs w !! resolve w
                  (Path.join (resolve w (Path.split src_path).1)
                     (Tempfile.template +:+ Tempfile.name_of draw +:+ ".h5")))) ->
    fs w' = fs w -> trace w' = trace w ->
    run size self src_path w (Raise e) w'
| SourceUnreadable e tmp_path w' :
    temp_for w src_path tmp_path ->
    container (<[resolve w tmp_path := empty_file]> (fs w) !! resolve w src_path) = None ->
    fs w' = <[resolve w tmp_path := empty_file]> (fs w) ->
    trace w' = trace w ++ [EvMkstemp tmp_path; EvPrint (LogInfo src_path tmp_path);
                           EvH5File src_path ModeR] ->
    run size self src_path w (Raise e) w'
| WriteFailed e tmp_path root dst w' :
    temp_for w src_path tmp_path ->
    resolve w src_path <> resolve w tmp_path ->
    container (fs w !! resolve w src_path) = Some root ->
    H5.visititems root (_recurse self) [] = (Raise e, dst) ->
    fs w' = <[resolve w tmp_path := h5_inode size dst]> (fs w) ->
    trace w' = trace w ++ [EvMkstemp tmp_path; EvPrint (LogInfo src_path tmp_path);
                           EvH5File src_path ModeR; EvH5File tmp_path ModeW;
                           EvH5Close tmp_path] ->
    run size self src_path w (Raise e) w'
| Published tmp_path root dst w' :
    temp_for w src_path tmp_path ->
    resolve w src_path <> resolve w tmp_path ->
    container (fs w !! resolve w src_path) = Some root ->
    H5.visititems root (_recurse self) [] = (Ok tt, dst) ->
    fs w' = <[resolve w src_path := h5_inode size dst]> (fs w) ->
    trace w' = trace w ++ [EvMkstemp tmp_path; EvPrint (LogInfo src_path tmp_path);
                           EvH5File src_path ModeR; EvH5File tmp_path ModeW;
                           EvH5Close tmp_path; EvMove tmp_path src_path;
                           EvPrint (LogDone src_path)] ->
    run size self src_path w (Ok tt) w'.

(** The filter of [on_created], in words: the event is for a file whose
    base name ends in [".h5"] and does not start with ["tmp"]. *)
Definition candidate (event : FileSystemEvent) : Prop :=
  is_directory event = false /\
  (exists stem, Path.basename (src_path event) = stem +:+ ".h5") /\
  ~ (exists rest, Path.basename (src_path event) = "tmp" +:+ rest).

(** The stability probe has succeeded on [path] within [evs]: two size
    reads, one second apart, gave the same size. *)
Definition probe_passed (path : string) (evs : list event) : Prop :=
  exists before s after,
    evs = before ++ [EvGetsize path (Some s); EvSleep 1; EvGetsize path (Some s)] ++ after.

(** The [try] block for one file, of [on_created] and of the batch loop *)
Definition attempt (size : H5.members -> N) (handler : H5Handler) (path : string)
  : M world unit :=
  try_except (compress_and_replace size handler path)
    (fun e => Os.print (LogError path e)).

(** The paths the batch loop keeps, in the order of the walk *)
Definition matching (walk : list (string * list string * list string)) : list string :=
  flat_map (fun entry =>
    flat_map (fun fname =>
      if negb (Str.endswith fname ".h5") || Str.startswith fname "tmp"
      then []
      else [Path.join entry.1.1 fname]) entry.2) walk.

(** The paths for which a [DONE] or an [ERROR] line is printed, in the
    order of the lines. *)
Definition reported (evs : list event) : list string :=
  flat_map (fun e =>
    match e with
    | EvPrint (LogDone path) => [path]
    | EvPrint (LogError path _) => [path]
    | _ => []
    end) evs.

(** [int(s)] for a string of decimal digits *)
Definition int_of_digits (s : string) : option nat :=
  match DecimalString.NilEmpty.uint_of_string s with
  | Some d => Some (Nat.of_uint d)
  | None => None
  end.

(** *** Notions for [rml.py] *)

(** The characters of a decimal numeral. *)
Definition is_digit (c : ascii) : bool :=
  (48 <=? nat_of_ascii c)%nat && (nat_of_ascii c <=? 57)%nat.

Fixpoint digits_only (s : string) : bool :=
  match s with
  | EmptyString => true
  | String c r => is_digit c && digits_only r
  end.

Section Saved.

Variable F : Type.
Variable format_float : F -> string.

(** The [worldPosition] element with the texts of its first three
    children replaced by the coordinates of a sample; nothing where it
    has fewer children. *)
Definition retext (samp : F * F * F) (wp : Xml.element) : option Xml.element :=
  let '(x, y, z) := samp in
  match Xml.children wp with
  | a :: b :: c :: rest =>
      Some (Xml.set_children
              (Xml.set_text (format_float x) a :: Xml.set_text (format_float y) b
                 :: Xml.set_text (format_float z) c :: rest) wp)
  | _ => None
  end.

(** One of the assignments [wp_elem[j].text = v], seen from [wp_elem]. *)
Definition set_nth_text (j : nat) (v : string) : Xml.element -> option Xml.element :=
  Xml.update_at [j] (fun t => Some (Xml.set_text v t)).

Definition with_doc (d : Xml.element) (s : Rml.state F) : Rml.state F :=
  {| Rml.doc := d; Rml.drawn := Rml.drawn s; Rml.ops := Rml.ops s |}.

(** The document [d] with the sample put at the element [wp_elem]. *)
Definition positioned (wp_elem : list nat) (samp : F * F * F) (d : Xml.element)
  : option Xml.element :=
  Xml.update_at wp_elem (retext samp) d.

(** The files written and the directories made by a list of
    operations, in order. *)
Definition writes (l : list (Rml.op F)) : list (string * Xml.element) :=
  flat_map (fun o =>
    match o with
    | Rml.Write path d => [(path, d)]
    | _ => []
    end) l.

Definition makedirs (l : list (Rml.op F)) : list string :=
  flat_map (fun o =>
    match o with
    | Rml.Makedirs path => [path]
    | _ => []
    end) l.

(** The width of the number in a file name, for [count] samples. *)
Definition width_of (count : nat) : nat :=
  String.length (Py.str (Z.of_nat count - 1)).

(** The directory and the path of the file of sample [i]. *)
Definition subdir_path (out_dir : string) (n_subdirs : Z) (count i : nat) : string :=
  Path.join out_dir ("subdir_" +:+ Py.str (Rml.subdir_idx i n_subdirs count)).

Definition saved_path (out_dir inp_name : string) (n_subdirs : Z) (count i : nat)
  : string :=
  Path.join (subdir_path out_dir n_subdirs count i)
    (Rml.file_name i (width_of count) inp_name).

(** What the loop of [save_samples] does from sample [i] on, when the
    tree at its start is [doc0] up to the texts of the coordinates. *)
Fixpoint loop_ops (doc0 : Xml.element) (wp_elem : list nat)
    (out_dir inp_name : string) (n_subdirs : Z) (count i : nat)
    (rest : list (F * F * F)) : list (Rml.op F) :=
  match rest with
  | [] => []
  | samp :: rest' =>
      Rml.Makedirs (subdir_path out_dir n_subdirs count i)
        :: Rml.Write (saved_path out_dir inp_name n_subdirs count i)
             (default doc0 (positioned wp_elem samp doc0))
        :: (if (i mod 1000 =? 0)%nat then [Rml.Print (Rml.Saved F i)] else [])
        ++ loop_ops doc0 wp_elem out_dir inp_name n_subdirs count (S i) rest'
  end.

(** The tree after the loop. *)
Definition final_doc (doc0 : Xml.element) (wp_elem : list nat)
    (d : Xml.element) (samples : list (F * F * F)) : Xml.element :=
  fold_left (fun _ samp => default doc0 (positioned wp_elem samp doc0)) samples d.

End Saved.

Arguments retext {F}.
Arguments positioned {F}.
Arguments writes {F}.
Arguments makedirs {F}.
Arguments loop_ops {F}.
Arguments final_doc {F}.
Arguments with_doc {F}.

Section Sampled.

Variable F : Type.
Variable minus_one plus_one : F -> F.
Variable uniform : nat -> F -> F -> F.

(** The point made of the draws [k], [k + 1] and [k + 2], each from the
    interval around the coordinate it replaces. *)
Definition sample_at (coords : F * F * F) (k : nat) : F * F * F :=
  let '(x, y, z) := coords in
  (uniform k (minus_one x) (plus_one x),
   uniform (S k) (minus_one y) (plus_one y),
   uniform (S (S k)) (minus_one z) (plus_one z)).

End Sampled.

Arguments sample_at {F}.

(** ** A sample run directory

    [/data] holds a finished container [a.h5], a file [b.h5] that is
    still being written, and a container [c.h5] with a scalar dataset. *)

Module Sample.

Definition size (root : H5.members) : N :=
  (96 + 8 * N.of_nat (length (H5.visit_members root)))%N.

Definition raw : H5.filter :=
  {| H5.compression := None; H5.compression_opts := None |}.

Definition rays : H5.ndarray :=
  {| H5.dtype := "<f8"; H5.shape := [2; 3]%nat;
     H5.buffer := [Byte.x01; Byte.x02; Byte.x03; Byte.x04; Byte.x05; Byte.x06] |}.

Definition count : H5.ndarray :=
  {| H5.dtype := "<i8"; H5.shape := []; H5.buffer := [Byte.x2a] |}.

Definition root_a : H5.members :=
  [("rayx", H5.Group [("events", H5.Dataset rays raw); ("meta", H5.Group [])]);
   ("version", H5.Dataset rays raw)].

Definition root_c : H5.members := [("n", H5.Dataset count raw)].

Definition world0 : world :=
  {| fs := {[ "/data" := {| st_size := 4096; st_node := Directory |};
              "/data/a.h5" := {| st_size := 2144; st_node := Regular (Some root_a) |};
              "/data/b.h5" := {| st_size := 512; st_node := Regular None |};
              "/data/c.h5" := {| st_size := 800; st_node := Regular (Some root_c) |} ]};
     cwd := "/home/user";
     clock := 100;
     last_event_time := 100;
     rng := [[0; 1; 2; 3; 4; 5; 6; 7]; [7; 6; 5; 4; 3; 2; 1; 0]]%nat;
     others := [];
     trace := [] |}.

(** The same directory while another process removes [b.h5]. *)
Definition vanishing : world :=
  {| fs := fs world0; cwd := cwd world0; clock := clock world0;
     last_event_time := last_event_time world0; rng := rng world0;
     others := [Unlink "/data/b.h5"]; trace := [] |}.

Definition start (w : world) : system :=
  {| sys_world := w; sys_observer := Dispatching; sys_main := Watching |}.

Definition gzip4 : H5Handler :=
  {| compression := Some H5.Gzip; compression_level := 4 |}.

Definition created (path : string) : FileSystemEvent :=
  {| src_path := path; is_directory := false |}.

Definition args : Args :=
  {| workdir := "/data"; idle_timeout := 5; arg_compression := ChoiceGzip;
     level := 4; once := false |}.

Definition lzf1 : H5Handler :=
  {| compression := Some H5.Lzf; compression_level := 1 |}.
Definition lzf9 : H5Handler :=
  {| compression := Some H5.Lzf; compression_level := 9 |}.

End Sample.

(** ** A sample RML file

    A beamline of three elements; the one before the last holds the
    [worldPosition].  The floats are kept as written: a draw is named
    by its number. *)

Module SampleRml.
Import Xml.

Definition coord (t v : string) : element := Element t [] (Some v) None [].

Definition wp0 : element :=
  Element "param" [("id", "worldPosition")] None None
    [coord "x" "1.5"; coord "y" "2"; coord "z" "-3"].

Definition mirror : element :=
  Element "object" [("name", "M1")] None None
    [Element "param" [("id", "other")] None None [];
     Element "group" [] None None [wp0]].

Definition doc0 : element :=
  Element "lab" [] None None
    [Element "beamline" [] None None
       [Element "object" [("name", "src")] None None []; mirror;
        Element "object" [("name", "plane")] None None []]].

Definition parse_float (s : string) : option string :=
  if String.eqb s "" then None else Some s.
Definition format_float (x : string) : string := x.
Definition minus_one (x : string) : string := x +:+ "-1".
Definition plus_one (x : string) : string := x +:+ "+1".
Definition uniform (k : nat) (low high : string) : string :=
  "u" +:+ Py.str (Z.of_nat k).

Definition state0 : Rml.state string :=
  {| Rml.doc := doc0; Rml.drawn := 0; Rml.ops := [] |}.

Definition wp_elem : list nat := [0; 1; 1; 0]%nat.

Definition samples : list (string * string * string) :=
  [("a", "b", "c"); ("d", "e", "f"); ("g", "h", "i")].

Definition args : Rml.Args :=
  {| Rml.input_file := "in/a.rml"; Rml.n_samples := 3; Rml.n_subdirs := 2;
     Rml.output_dir := "out"; Rml.max_tries_mult := 10 |}.

End SampleRml.

(** * Checks of the path functions against [posixpath] *)

Example split_abs : Path.split "/data/run/a.h5" = ("/data/run", "a.h5").
Proof. reflexivity. Qed.
Example split_root : Path.split "/a.h5" = ("/", "a.h5").
Proof. reflexivity. Qed.
Example split_bare : Path.split "a.h5" = ("", "a.h5").
Proof. reflexivity. Qed.
Example split_dslash : Path.split "/data//a.h5" = ("/data", "a.h5").
Proof. reflexivity. Qed.
Example abspath_rel : Path.abspath "/home/u" "out/../data/./x" = "/home/u/data/x".
Proof. reflexivity. Qed.
Example abspath_empty : Path.abspath "/home/u" "" = "/home/u".
Proof. reflexivity. Qed.
Example normpath_up : Path.normpath "../../a//b/" = "../../a/b".
Proof. reflexivity. Qed.
Example normpath_root : Path.normpath "//.." = "//".
Proof. reflexivity. Qed.

(** * Facts about the string and path functions *)

Module StrFacts.
Import Str.

Lemma app_cons (c : ascii) (s t : string) : String c s +:+ t = String c (s +:+ t).
Proof. reflexivity. Qed.

Lemma app_nil_l (t : string) : "" +:+ t = t.
Proof. reflexivity. Qed.

Lemma append_nil_r (s : string) : s +:+ "" = s.
Proof. induction s as [|c s IH]; [done |]. rewrite app_cons. by f_equal. Qed.

Lemma append_assoc (a b c : string) : (a +:+ b) +:+ c = a +:+ b +:+ c.
Proof. induction a as [|x a IH]; [done |]. rewrite !app_cons. by f_equal. Qed.

Lemma startswith_spec (s pre : string) :
  startswith s pre = true <-> exists rest, s = pre +:+ rest.
Proof.
  revert s; induction pre as [|c pre IH]; intros s; simpl.
  - split; [intros _; exists s; reflexivity | reflexivity].
  - destruct s as [|d s].
    + split; [done | intros [rest H]; discriminate].
    + destruct (Ascii.eqb_spec c d) as [->|Hne].
      * rewrite IH. split; intros [rest H]; exists rest;
          rewrite ?app_cons in *; congruence.
      * split; [done | intros [rest H]; rewrite app_cons in H; congruence].
Qed.

Lemma endswith_spec (s suf : string) :
  endswith s suf = true <-> exists stem, s = stem +:+ suf.
Proof.
  induction s as [|c s IH]; cbn [endswith].
  - destruct (String.eqb_spec "" suf) as [<-|Hne].
    + split; [intros _; exists ""; reflexivity | reflexivity].
    + split; [done |].
      intros [stem H]. destruct stem; [by rewrite app_nil_l in H | discriminate].
  - destruct (String.eqb_spec (String c s) suf) as [<-|Hne].
    + split; [intros _; exists ""; reflexivity | reflexivity].
    + rewrite IH. split.
      * intros [stem ->]. exists (String c stem). reflexivity.
      * intros [stem H]. destruct stem as [|d stem].
        -- by rewrite app_nil_l in H.
        -- exists stem. rewrite app_cons in H. congruence.
Qed.

Lemma endswith_sep (s : string) : endswith s "/" = last_is_sep s.
Proof.
  induction s as [|c s IH]; [done |].
  cbn [endswith last_is_sep]. destruct s as [|d s].
  - simpl. unfold sep. by destruct (Ascii.eqb c "/").
  - rewrite <- IH.
    replace (String.eqb (String c (String d s)) "/") with false; [done |].
    simpl. destruct (Ascii.eqb c "/"); [|done]. by destruct s.
Qed.

Lemma sep_free_app (a b : string) :
  sep_free (a +:+ b) = sep_free a && sep_free b.
Proof. induction a as [|c a IH]; simpl; [done |]. rewrite IH. by destruct (Ascii.eqb c sep). Qed.

Lemma cut_sep_free (n : string) : sep_free n = true -> cut_last_sep n = ("", n).
Proof.
  induction n as [|c n IH]; [done |]. cbn [sep_free cut_last_sep].
  intros [Hc Hn]%andb_true_iff. rewrite (IH Hn).
  by destruct (Ascii.eqb c sep).
Qed.

Lemma cut_after_sep (a n : string) :
  last_is_sep a = true -> sep_free n = true -> cut_last_sep (a +:+ n) = (a, n).
Proof.
  induction a as [|c a IH]; [done |].
  intros Ha Hn. rewrite app_cons. cbn [cut_last_sep].
  destruct a as [|d a].
  - cbn [last_is_sep] in Ha. rewrite app_nil_l, (cut_sep_free _ Hn), Ha. done.
  - rewrite (IH Ha Hn). done.
Qed.

Lemma cut_concat (s : string) : (cut_last_sep s).1 +:+ (cut_last_sep s).2 = s.
Proof.
  induction s as [|c s IH]; [done |]. cbn [cut_last_sep].
  destruct (cut_last_sep s) as [h t]. simpl in IH.
  destruct h as [|d h]; [destruct (Ascii.eqb c sep)|];
    cbn [fst snd] in *; rewrite ?app_cons, ?app_nil_l in *; congruence.
Qed.

Lemma cut_tail_sep_free (s : string) : sep_free (cut_last_sep s).2 = true.
Proof.
  induction s as [|c s IH]; [done |]. cbn [cut_last_sep].
  destruct (cut_last_sep s) as [h t]. simpl in IH.
  destruct h as [|d h]; [|done].
  destruct (Ascii.eqb c sep) eqn:E; simpl; [done |]. by rewrite E.
Qed.

Lemma cut_head (s : string) :
  (cut_last_sep s).1 = "" \/ last_is_sep (cut_last_sep s).1 = true.
Proof.
  induction s as [|c s IH]; [by left |]. cbn [cut_last_sep].
  destruct (cut_last_sep s) as [h t]. simpl in IH.
  destruct h as [|d h].
  - destruct (Ascii.eqb c sep) eqn:E; [right | left]; done.
  - right. destruct IH as [|IH]; [done |]. exact IH.
Qed.

Lemma last_is_sep_app (a b : string) :
  b <> "" -> last_is_sep (a +:+ b) = last_is_sep b.
Proof.
  intros Hb. induction a as [|c a IH]; [done |].
  rewrite app_cons. cbn [last_is_sep]. rewrite IH.
  destruct (a +:+ b) eqn:E; [|done].
  destruct a; [by rewrite app_nil_l in E | discriminate].
Qed.

Lemma all_sep_last (s : string) : s <> "" -> all_sep s = true -> last_is_sep s = true.
Proof.
  induction s as [|c s IH]; [done |]. intros _ [Hc Hs]%andb_true_iff.
  cbn [last_is_sep]. destruct s; [done |]. by apply IH.
Qed.

Lemma all_sep_app (a b : string) : all_sep (a +:+ b) = all_sep a && all_sep b.
Proof. induction a as [|c a IH]; simpl; [done |]. rewrite IH. by destruct (Ascii.eqb c sep). Qed.

Lemma last_not_sep_not_all (s : string) :
  s <> "" -> last_is_sep s = false -> all_sep s = false.
Proof.
  intros Hs Hl. destruct (all_sep s) eqn:E; [|done].
  by rewrite (all_sep_last s Hs E) in Hl.
Qed.

Lemma rstrip_after (s : string) :
  last_is_sep s = false -> rstrip_sep (s +:+ "/") = s.
Proof.
  induction s as [|c s IH]; [done |]. intros H.
  rewrite app_cons. cbn [rstrip_sep]. destruct s as [|d s].
  - cbn [last_is_sep] in H. rewrite app_nil_l. cbn. by rewrite H.
  - rewrite (IH H). done.
Qed.

End StrFacts.

Module PathFacts.
Import Str StrFacts.

Lemma startswith_sep_free (n : string) :
  sep_free n = true -> startswith n "/" = false.
Proof.
  destruct n as [|c n]; [done |]. cbn [sep_free startswith].
  intros [Hc _]%andb_true_iff.
  rewrite Ascii.eqb_sym. fold sep. by destruct (Ascii.eqb c sep).
Qed.

(** A file created as [join(d, n)] is split back into [d] and [n]. *)
Lemma split_join (d n : string) :
  dir_shape d -> sep_free n = true ->
  Path.split (Path.join d n) = (d, n).
Proof.
  intros [Hd Hshape] Hn. unfold Path.join, Path.split.
  rewrite (startswith_sep_free _ Hn), endswith_sep.
  destruct (String.eqb_spec d "") as [|_]; [done |]. cbn [orb].
  destruct Hshape as [Hall|Hlast].
  - rewrite (all_sep_last d Hd Hall).
    rewrite (cut_after_sep d n (all_sep_last d Hd Hall) Hn), Hall.
    by rewrite andb_false_r.
  - rewrite Hlast, <- append_assoc.
    assert (last_is_sep (d +:+ "/") = true) as Hl by (by rewrite last_is_sep_app).
    rewrite (cut_after_sep _ n Hl Hn).
    assert (d +:+ "/" <> "") as Hne by (destruct d; done).
    destruct (String.eqb_spec (d +:+ "/") "") as [|_]; [done |].
    rewrite all_sep_app, (last_not_sep_not_all d Hd Hlast). cbn.
    by rewrite rstrip_after.
Qed.

(** The base name is what follows the last separator. *)
Lemma basename_spec (p : string) :
  exists head,
    p = head +:+ Path.basename p /\ sep_free (Path.basename p) = true /\
    (head = "" \/ last_is_sep head = true).
Proof.
  exists (cut_last_sep p).1. unfold Path.basename.
  split; [by rewrite cut_concat |]. split; [apply cut_tail_sep_free | apply cut_head].
Qed.

Lemma basename_join (d n : string) :
  dir_shape d -> sep_free n = true -> Path.basename (Path.join d n) = n.
Proof.
  intros [Hd Hshape] Hn. unfold Path.join, Path.basename.
  rewrite (startswith_sep_free _ Hn), endswith_sep.
  destruct (String.eqb_spec d "") as [|_]; [done |]. cbn [orb].
  destruct (last_is_sep d) eqn:Hl.
  - by rewrite (cut_after_sep d n Hl Hn).
  - rewrite <- append_assoc.
    rewrite (cut_after_sep (d +:+ "/") n); [done | by rewrite last_is_sep_app | done].
Qed.

Lemma split_sep_free (s : string) :
  Forall (fun c => sep_free c = true) (Str.split s).
Proof.
  induction s as [|c s IH]; [by repeat constructor |].
  cbn [Str.split]. destruct (Ascii.eqb c sep) eqn:E.
  - by constructor.
  - destruct (Str.split s) as [|x xs]; [by repeat constructor; cbn; rewrite E |].
    inversion IH; subst. constructor; [|done]. cbn. by rewrite E.
Qed.

Lemma norm_step_ok (k : nat) (acc : list string) (c : string) :
  Forall comp_ok acc -> sep_free c = true -> Forall comp_ok (Path.norm_step k acc c).
Proof.
  intros Hacc Hc. unfold Path.norm_step.
  destruct (String.eqb_spec c "") as [|Hne]; [done |]. cbn [orb].
  destruct (String.eqb c "."); [done |].
  match goal with |- context [if ?b then _ else _] => destruct b end.
  - by constructor.
  - destruct acc; [done | by inversion Hacc].
Qed.

Lemma fold_norm_ok (k : nat) (comps acc : list string) :
  Forall (fun c => sep_free c = true) comps -> Forall comp_ok acc ->
  Forall comp_ok (fold_left (Path.norm_step k) comps acc).
Proof.
  revert acc. induction comps as [|c comps IH]; intros acc Hc Hacc; [done |].
  inversion Hc; subst. cbn [fold_left]. apply IH; [done |].
  by apply norm_step_ok.
Qed.

Lemma join_ok (comps : list string) :
  Forall comp_ok comps -> comps <> [] ->
  Str.join comps <> "" /\ last_is_sep (Str.join comps) = false.
Proof.
  induction comps as [|c comps IH]; [done |]. intros Hall _.
  inversion Hall as [|? ? [Hne Hfree] Hrest]; subst.
  assert (last_is_sep c = false) as Hc.
  { clear -Hne Hfree. induction c as [|x c IH]; [done |].
    cbn [sep_free] in Hfree. apply andb_true_iff in Hfree as [Hx Hfree].
    cbn [last_is_sep]. destruct c; [by destruct (Ascii.eqb x sep) |].
    by apply IH. }
  destruct comps as [|c' comps]; [done |].
  destruct (IH Hrest) as [Hj Hl]; [done |].
  change (Str.join (c :: c' :: comps)) with (c +:+ "/" +:+ Str.join (c' :: comps)).
  split.
  - destruct c; [done | by rewrite app_cons].
  - rewrite !last_is_sep_app; [done | done |].
    by destruct (Str.join (c' :: comps)).
Qed.

Lemma normpath_shape (p : string) : dir_shape (Path.normpath p).
Proof.
  unfold Path.normpath.
  destruct (String.eqb p ""); [by split; [|right] |].
  set (k := if startswith p "/" then _ else _).
  set (comps := rev _).
  assert (Forall comp_ok comps) as Hok.
  { apply Forall_rev, fold_norm_ok; [apply split_sep_free | constructor]. }
  destruct (String.eqb_spec (Path.slashes k +:+ Str.join comps) "") as [|Hne];
    [by split; [|right] |].
  split; [done |].
  destruct comps as [|c comps].
  - left. rewrite append_nil_r. by destruct k as [|[|k]].
  - right. destruct (join_ok (c :: comps) Hok) as [Hj Hl]; [done |].
    by rewrite last_is_sep_app.
Qed.

Lemma abspath_shape (cwd p : string) : dir_shape (Path.abspath cwd p).
Proof. apply normpath_shape. Qed.

(** The names [tempfile] draws contain no separator. *)
Lemma choose_not_sep (i : nat) : Ascii.eqb (Tempfile.choose i) sep = false.
Proof.
  unfold Tempfile.choose.
  assert (Forall (fun c => Ascii.eqb c sep = false) Tempfile.characters) as Hall.
  { unfold Tempfile.characters. cbn. repeat constructor. }
  rewrite Forall_forall in Hall. apply Hall. apply list_elem_of_In, nth_In.
  apply Nat.mod_upper_bound. by cbn.
Qed.

Lemma name_of_sep_free (draw : list nat) : sep_free (Tempfile.name_of draw) = true.
Proof.
  unfold Tempfile.name_of. induction draw as [|i draw IH]; [done |].
  cbn [map String.string_of_list_ascii sep_free].
  by rewrite choose_not_sep, IH.
Qed.

Lemma tmp_name_sep_free (draw : list nat) :
  sep_free (Tempfile.template +:+ Tempfile.name_of draw +:+ ".h5") = true.
Proof. by rewrite !sep_free_app, name_of_sep_free. Qed.

End PathFacts.

(** * Facts about the container operations *)

Module H5Facts.
Import H5 Logical Str StrFacts.

(** Induction on a container tree. *)
Lemma obj_ind' (P : obj -> Prop) :
  (forall value storage, P (Dataset value storage)) ->
  (forall ms, (forall m, In m ms -> P m.2) -> P (Group ms)) ->
  forall o, P o.
Proof.
  intros HD HG. fix IH 1. intros [value storage|ms]; [apply HD |].
  apply HG. induction ms as [|x rest IHms]; intros m Hm.
  - destruct Hm.
  - destruct Hm as [<-|Hm]; [apply IH | by apply IHms].
Qed.

Lemma name_ok_inv (n : string) :
  name_ok n = true -> n <> "" /\ n <> "." /\ sep_free n = true.
Proof.
  unfold name_ok. intros [[H1 H2]%andb_true_iff H3]%andb_true_iff.
  destruct (String.eqb_spec n ""), (String.eqb_spec n "."); done.
Qed.

Lemma split_single (n : string) : sep_free n = true -> Str.split n = [n].
Proof.
  induction n as [|c n IH]; [done |]. cbn [sep_free Str.split].
  intros [Hc Hn]%andb_true_iff. rewrite (IH Hn).
  by destruct (Ascii.eqb c sep).
Qed.

Lemma split_prefixed (n k : string) :
  sep_free n = true -> Str.split (n +:+ "/" +:+ k) = n :: Str.split k.
Proof.
  induction n as [|c n IH]; [done |]. cbn [sep_free].
  intros [Hc Hn]%andb_true_iff. rewrite app_cons. cbn [Str.split].
  rewrite (IH Hn). by destruct (Ascii.eqb c sep).
Qed.

Lemma components_single (n : string) : name_ok n = true -> components n = [n].
Proof.
  intros (H1 & H2 & H3)%name_ok_inv. unfold components.
  rewrite (split_single n H3). cbn.
  destruct (String.eqb_spec n ""), (String.eqb_spec n "."); done.
Qed.

Lemma components_prefixed (n k : string) :
  name_ok n = true -> components (n +:+ "/" +:+ k) = n :: components k.
Proof.
  intros (H1 & H2 & H3)%name_ok_inv. unfold components.
  rewrite (split_prefixed n k H3). cbn [List.filter].
  destruct (String.eqb_spec n ""), (String.eqb_spec n "."); done.
Qed.

(** Looking up and replacing a link that was added last. *)
Lemma get_snoc (n k : string) (o : obj) (acc : members) :
  get n acc = None ->
  get n (acc ++ [(k, o)]) = if String.eqb k n then Some o else None.
Proof.
  induction acc as [|[k' o'] acc IH]; cbn [get app]; [done |].
  destruct (String.eqb k' n); [done | exact IH].
Qed.

Lemma set_snoc (n : string) (o o' : obj) (acc : members) :
  get n acc = None -> set n o' (acc ++ [(n, o)]) = acc ++ [(n, o')].
Proof.
  induction acc as [|[k' x] acc IH]; cbn [get set app].
  - by rewrite String.eqb_refl.
  - destruct (String.eqb k' n); [done |]. intros H. by rewrite IH.
Qed.

Lemma walk_into (n : string) (rest : list string)
    (at_end : members -> result members) (acc sub : members) :
  get n acc = None ->
  walk (n :: rest) at_end (acc ++ [(n, Group sub)]) =
    match walk rest at_end sub with
    | Ok sub' => Ok (acc ++ [(n, Group sub')])
    | other => other
    end.
Proof.
  intros H. cbn [walk]. rewrite (get_snoc _ _ _ _ H), String.eqb_refl.
  destruct (walk rest at_end sub); [|done..]. by rewrite set_snoc.
Qed.

(** The names [visititems] passes below [n] start with [n/]. *)
Lemma visit_prefixed (n k : string) (o : obj) :
  visit (n +:+ "/" +:+ k) o =
    map (fun it => (n +:+ "/" +:+ it.1, it.2)) (visit k o).
Proof.
  revert k. induction o as [value storage|ms IH] using obj_ind'; intros k; [done |].
  cbn [visit map fst snd]. f_equal.
  induction ms as [|m ms IHms]; [done |]. cbn [flat_map].
  rewrite map_app. f_equal.
  - rewrite <- IH by (by left). by rewrite !append_assoc.
  - apply IHms. intros m' Hm'. apply IH. by right.
Qed.

Lemma visit_children (n : string) (ms : members) :
  flat_map (fun m => visit (n +:+ "/" +:+ m.1) m.2) ms =
    map (fun it => (n +:+ "/" +:+ it.1, it.2)) (visit_members ms).
Proof.
  unfold visit_members. induction ms as [|m ms IH]; [done |].
  cbn [flat_map]. by rewrite map_app, visit_prefixed, IH.
Qed.

Lemma visit_names (n : string) (o : obj) (it : string * obj) :
  In it (visit n o) -> it.1 = n \/ exists k, it.1 = n +:+ "/" +:+ k.
Proof.
  destruct o as [value storage|ms]; cbn [visit].
  - intros [<-|[]]. by left.
  - intros [<-|H]; [by left |]. right.
    rewrite visit_children in H. apply in_map_iff in H as (it' & <- & _).
    by eexists.
Qed.

Lemma commit_below (n : string) (acc sub : members) (r : result members) :
  commit
    match r with
    | Ok sub' => Ok (acc ++ [(n, Group sub')])
    | Raise e => Raise e
    | Unfinished => Unfinished
    end (acc ++ [(n, Group sub)])
  = below n acc (commit r sub).
Proof. by destruct r. Qed.

Lemma create_group_below (n k : string) (acc sub : members) :
  name_ok n = true -> get n acc = None -> components k <> [] ->
  create_group (n +:+ "/" +:+ k) (acc ++ [(n, Group sub)]) =
    below n acc (create_group k sub).
Proof.
  intros Hn Hacc Hk. unfold create_group.
  rewrite (components_prefixed n k Hn).
  destruct (components k) as [|q0 q]; [done |].
  cbn [removelast List.last]. rewrite (walk_into _ _ _ _ _ Hacc).
  apply commit_below.
Qed.

Lemma create_dataset_below (n k : string) (data : ndarray) (kwargs : filter)
    (acc sub : members) :
  name_ok n = true -> get n acc = None -> components k <> [] ->
  create_dataset (n +:+ "/" +:+ k) data kwargs (acc ++ [(n, Group sub)]) =
    below n acc (create_dataset k data kwargs sub).
Proof.
  intros Hn Hacc Hk. unfold create_dataset.
  rewrite (components_prefixed n k Hn).
  destruct (components k) as [|q0 q]; [done |].
  cbn [removelast List.last]. unfold bind, require_group.
  rewrite (walk_into _ _ _ _ _ Hacc), commit_below.
  destruct (commit _ sub) as [[[]|e|] sub1]; cbn [below fst snd]; [|done..].
  destruct (fill_dcpl (shape data) kwargs) as [e|]; [done |].
  rewrite (walk_into _ _ _ _ _ Hacc). apply commit_below.
Qed.

Lemma recurse_below (self : H5Handler) (n k : string) (o : obj)
    (acc sub : members) :
  name_ok n = true -> get n acc = None -> components k <> [] ->
  _recurse self (n +:+ "/" +:+ k) o (acc ++ [(n, Group sub)]) =
    below n acc (_recurse self k o sub).
Proof.
  destruct o; cbn [_recurse];
    [apply create_dataset_below | apply create_group_below].
Qed.

Lemma for_each_app {S A} (xs ys : list A) (body : A -> M S unit) (s : S) :
  for_each (xs ++ ys) body s =
    bind (for_each xs body) (fun _ => for_each ys body) s.
Proof.
  revert s. induction xs as [|x xs IH]; intros s; [done |].
  cbn [app for_each]. unfold bind.
  destruct (body x s) as [[[]|e|] s1]; [|done..]. exact (IH s1).
Qed.

Lemma for_each_below (self : H5Handler) (n : string)
    (items : list (string * obj)) (acc sub : members) :
  name_ok n = true -> get n acc = None ->
  (forall it, In it items -> components it.1 <> []) ->
  for_each (map (fun it => (n +:+ "/" +:+ it.1, it.2)) items)
    (fun it => _recurse self it.1 it.2) (acc ++ [(n, Group sub)]) =
    below n acc (for_each items (fun it => _recurse self it.1 it.2) sub).
Proof.
  intros Hn Hacc. revert sub.
  induction items as [|it items IH]; intros sub Hitems; [done |].
  cbn [map for_each fst snd]. unfold bind.
  rewrite recurse_below by (try done; apply Hitems; by left).
  destruct (_recurse self it.1 it.2 sub) as [[[]|e|] sub1]; cbn [below fst snd];
    [|done..].
  apply IH. intros it' H. apply Hitems. by right.
Qed.

Lemma visit_components (n : string) (o : obj) (it : string * obj) :
  name_ok n = true -> In it (visit n o) -> components it.1 <> [].
Proof.
  intros Hn [->|[k ->]]%visit_names.
  - by rewrite components_single.
  - by rewrite components_prefixed.
Qed.

Lemma distinct_cons (n : string) (rest : list string) :
  distinct (n :: rest) = true ->
  distinct rest = true /\ forall k, In k rest -> String.eqb n k = false.
Proof.
  cbn [distinct]. intros [Hn Hrest]%andb_true_iff. split; [done |].
  intros k Hk. destruct (String.eqb n k) eqn:E; [|done].
  apply negb_true_iff in Hn. rewrite <- Hn. symmetry.
  apply existsb_exists. by exists k.
Qed.

Lemma rebuild_members (self : H5Handler) (ms : members) :
  (forall m, In m ms ->
     well_formed m.2 = true -> forall n acc,
     name_ok n = true -> get n acc = None ->
     rebuilt self (accepted (kwargs self) m.2)
       (for_each (visit n m.2) (fun it => _recurse self it.1 it.2) acc)
       (acc ++ [(n, restore (kwargs self) m.2)])) ->
  well_formed (Group ms) = true ->
  forall acc, (forall m, In m ms -> get m.1 acc = None) ->
  rebuilt self (accepted (kwargs self) (Group ms))
    (for_each (visit_members ms) (fun it => _recurse self it.1 it.2) acc)
    (acc ++ restore_members (kwargs self) ms).
Proof.
  induction ms as [|m ms IHms]; intros IH Hwf acc Hacc.
  - cbn. by rewrite app_nil_r.
  - cbn [well_formed map forallb] in Hwf.
    apply andb_true_iff in Hwf as [Hd [[Hn Hm]%andb_true_iff Hrest]%andb_true_iff].
    apply distinct_cons in Hd as [Hd Hfresh].
    unfold visit_members. cbn [flat_map]. rewrite for_each_app.
    cbn [accepted forallb restore_members map].
    pose proof (IH m (or_introl eq_refl) Hm m.1 acc Hn (Hacc m (or_introl eq_refl))) as Hhead.
    unfold rebuilt in Hhead |- *. unfold bind.
    destruct (accepted (kwargs self) m.2).
    + rewrite Hhead. cbn [andb].
      replace (acc ++ (m.1, restore (kwargs self) m.2) :: map _ ms)
        with ((acc ++ [(m.1, restore (kwargs self) m.2)]) ++ restore_members (kwargs self) ms)
        by (by rewrite <- app_assoc).
      apply IHms.
      * intros m' Hm'. apply IH. by right.
      * cbn [well_formed]. by rewrite Hd, Hrest.
      * intros m' Hm'. rewrite get_snoc by (apply Hacc; by right).
        rewrite Hfresh; [done |]. apply in_map_iff. by exists m'.
    + destruct Hhead as (e & ms' & ->). cbn [andb]. by exists e, ms'.
Qed.

Lemma rebuild_obj (self : H5Handler) (o : obj) :
  well_formed o = true -> forall n acc,
  name_ok n = true -> get n acc = None ->
  rebuilt self (accepted (kwargs self) o)
    (for_each (visit n o) (fun it => _recurse self it.1 it.2) acc)
    (acc ++ [(n, restore (kwargs self) o)]).
Proof.
  induction o as [value storage|ms IH] using obj_ind'; intros Hwf n acc Hn Hacc.
  - cbn [visit for_each fst snd _recurse accepted restore]. unfold rebuilt, bind.
    unfold create_dataset. rewrite (components_single n Hn).
    cbn [removelast List.last]. unfold bind, require_group. cbn [walk commit].
    destruct (fill_dcpl (shape value) (kwargs self)) as [e|] eqn:E.
    + rewrite bool_decide_eq_false_2 by done. by exists e, acc.
    + rewrite bool_decide_eq_true_2 by done. unfold link. by rewrite Hacc.
  - cbn [visit for_each fst snd _recurse restore]. unfold bind at 1.
    unfold create_group. rewrite (components_single n Hn).
    cbn [removelast List.last walk]. unfold link. rewrite Hacc. cbn [commit].
    rewrite visit_children, for_each_below; try done.
    2:{ intros it Hit. unfold visit_members in Hit.
        apply in_flat_map in Hit as (m & Hm & Hit).
        apply (visit_components m.1 m.2); [|done].
        cbn [well_formed] in Hwf. apply andb_true_iff in Hwf as [_ Hall].
        rewrite forallb_forall in Hall. specialize (Hall m Hm).
        by apply andb_true_iff in Hall as [? _]. }
    pose proof (rebuild_members self ms IH Hwf [] (fun _ _ => eq_refl)) as Hsub.
    unfold rebuilt in Hsub |- *.
    destruct (accepted (kwargs self) (Group ms)).
    + by rewrite Hsub.
    + destruct Hsub as (e & ms' & ->). by eexists _, _.
Qed.

(** The whole file: [src.visititems(_recurse)] into the empty
    destination. *)
Lemma rebuild_root (self : H5Handler) (root : members) :
  well_formed (Group root) = true ->
  rebuilt self (accepted (kwargs self) (Group root))
    (visititems root (_recurse self) [])
    (restore_members (kwargs self) root).
Proof.
  intros Hwf. unfold visititems.
  apply (rebuild_members self root); [|done..].
  intros m _ Hm n acc. by apply rebuild_obj.
Qed.







End H5Facts.

(** * Facts about the runs of the script *)

Module RunFacts.

Lemma advances_refl (P : event -> Prop) (w : world) : advances P w w.
Proof. repeat split. exists []. by rewrite app_nil_r. Qed.

Lemma advances_trans (P : event -> Prop) (w1 w2 w3 : world) :
  advances P w1 w2 -> advances P w2 w3 -> advances P w1 w3.
Proof.
  intros (Hc1 & Ht1 & evs1 & He1 & Hp1) (Hc2 & Ht2 & evs2 & He2 & Hp2).
  repeat split; [congruence | congruence |].
  exists (evs1 ++ evs2). split; [by rewrite He2, He1, app_assoc |].
  by apply Forall_app.
Qed.

Lemma advances_emit (P : event -> Prop) (e : event) (w w' : world) :
  P e -> advances P w w' -> advances P w (emit e w').
Proof.
  intros He H. apply (advances_trans P w w'); [done |].
  repeat split. exists [e]. split; [done | by constructor].
Qed.

Lemma advances_weaken (P Q : event -> Prop) (w w' : world) :
  (forall e, P e -> Q e) -> advances P w w' -> advances Q w w'.
Proof.
  intros HPQ (Hc & Ht & evs & He & Hp). repeat split; [done..|].
  exists evs. split; [done |]. eapply Forall_impl; eauto.
Qed.

Lemma emits_ret {A} (P : event -> Prop) (a : A) : emits P (ret a).
Proof. intros w. apply advances_refl. Qed.

Lemma emits_raise {A} (P : event -> Prop) (e : exn) : emits P (@raise world A e).
Proof. intros w. apply advances_refl. Qed.

Lemma emits_bind {A B} (P : event -> Prop) (c : M world A) (k : A -> M world B) :
  emits P c -> (forall a, emits P (k a)) -> emits P (bind c k).
Proof.
  intros Hc Hk w. unfold bind. specialize (Hc w).
  destruct (c w) as [[a|e|] w1]; [|done..].
  eapply advances_trans; [exact Hc | apply Hk].
Qed.

Lemma emits_try {A} (P : event -> Prop) (c : M world A) (h : exn -> M world A) :
  emits P c -> (forall e, emits P (h e)) -> emits P (try_except c h).
Proof.
  intros Hc Hh w. unfold try_except. specialize (Hc w).
  destruct (c w) as [[a|e|] w1]; [done | | done].
  eapply advances_trans; [exact Hc | apply Hh].
Qed.

Lemma emits_for_each {A} (P : event -> Prop) (xs : list A) (body : A -> M world unit) :
  (forall x, emits P (body x)) -> emits P (for_each xs body).
Proof.
  intros Hb. induction xs as [|x xs IH]; [apply emits_ret |].
  apply emits_bind; [apply Hb | intros _; apply IH].
Qed.

Lemma emits_getsize (P : event -> Prop) (path : string) :
  (forall size, P (EvGetsize path size)) -> emits P (Os.getsize path).
Proof.
  intros HP w. unfold Os.getsize.
  destruct (fs w !! resolve w path); apply advances_emit; auto using advances_refl.
Qed.

Lemma emits_sleep (P : event -> Prop) (seconds : Q) :
  P (EvSleep seconds) -> emits P (Os.sleep seconds).
Proof.
  intros HP w. apply advances_emit; [done |].
  repeat split. exists []. by rewrite app_nil_r.
Qed.

Lemma emits_print (P : event -> Prop) (l : line) :
  P (EvPrint l) -> emits P (Os.print l).
Proof. intros HP w. apply advances_emit; [done | apply advances_refl]. Qed.

Lemma emits_isdir (P : event -> Prop) (path : string) : emits P (Os.isdir path).
Proof. intros w. apply advances_refl. Qed.

Lemma emits_exists (P : event -> Prop) (path : string) : emits P (Os.exists_ path).
Proof. intros w. apply advances_refl. Qed.

Lemma emits_mkstemp_inner (P : event -> Prop) (dir pre suf : string)
    (draws : list (list nat)) (w : world) :
  (forall file, P (EvMkstemp file)) ->
  advances P w (Tempfile.mkstemp_inner dir pre suf draws w).2.
Proof.
  intros HP. induction draws as [|draw rest IH]; cbn [Tempfile.mkstemp_inner].
  - repeat split. exists []. by rewrite app_nil_r.
  - destruct (fs w !! resolve w _); [done |].
    apply advances_emit; [done |].
    repeat split. exists []. by rewrite app_nil_r.
Qed.

Lemma emits_mkstemp (P : event -> Prop) (suffix dir : string) :
  (forall file, P (EvMkstemp file)) -> emits P (Tempfile.mkstemp suffix dir).
Proof.
  intros HP w. unfold Tempfile.mkstemp.
  destruct (is_dir _); [by apply emits_mkstemp_inner | apply advances_refl].
Qed.

Lemma emits_move (P : event -> Prop) (src dst : string) :
  (forall a b, P (EvMove a b)) -> emits P (Shutil.move src dst).
Proof.
  intros HP. unfold Shutil.move.
  apply emits_bind; [apply emits_isdir |]. intros is_dir.
  apply emits_bind.
  - destruct is_dir; [|apply emits_ret].
    apply emits_bind; [apply emits_exists |].
    intros []; [apply emits_raise | apply emits_ret].
  - intros real_dst w. unfold Shutil.rename.
    destruct (fs w !! resolve w src); [|apply advances_refl].
    apply advances_emit; [done |].
    repeat split. exists []. by rewrite app_nil_r.
Qed.

Section WithSize.
Variable size : H5.members -> N.

Lemma advances_store (P : event -> Prop) (path : string) (root : H5.members)
    (w w' : world) :
  advances P w w' -> advances P w (h5_store size path root w').
Proof.
  intros H. apply (advances_trans P w w'); [done |].
  repeat split. exists []. by rewrite app_nil_r.
Qed.

Lemma emits_with_h5_files (P : event -> Prop) (src_path tmp_path : string)
    (body : H5.members -> M H5.members unit) :
  (forall path m, P (EvH5File path m)) -> (forall path, P (EvH5Close path)) ->
  emits P (with_h5_files size src_path tmp_path body).
Proof.
  intros HP1 HP2. unfold with_h5_files.
  apply emits_bind.
  { intros w. unfold h5_file_r.
    destruct (container _); apply advances_emit; auto using advances_refl. }
  intros src. apply emits_bind.
  { intros w. unfold h5_file_w. destruct (is_dir _).
    - apply advances_emit; auto using advances_refl.
    - apply advances_store, advances_emit; auto using advances_refl. }
  intros _ w. destruct (body src []) as [r dst]. cbn.
  apply advances_store, advances_emit; auto using advances_refl.
Qed.

Lemma emits_compress_and_replace (self : H5Handler) (src_path : string) :
  emits compressing (compress_and_replace size self src_path).
Proof.
  unfold compress_and_replace. destruct (Path.split src_path) as [dirname fname].
  apply emits_bind; [by apply emits_mkstemp |]. intros tmp_path.
  apply emits_bind; [by apply emits_print |]. intros _.
  apply emits_bind; [by apply emits_with_h5_files |]. intros _.
  apply emits_bind; [by apply emits_move |]. intros _.
  by apply emits_print.
Qed.

End WithSize.

End RunFacts.

Module CompressFacts.
Import RunFacts.

Lemma walk_finishes (path : list string) (at_end : H5.members -> result H5.members)
    (ms : H5.members) :
  (forall ms', at_end ms' <> Unfinished) -> H5.walk path at_end ms <> Unfinished.
Proof.
  intros Hend. revert ms. induction path as [|n rest IH]; intros ms; [apply Hend |].
  cbn [H5.walk]. destruct (H5.get n ms) as [[value storage|sub]|].
  - done.
  - specialize (IH sub). by destruct (H5.walk rest at_end sub).
  - specialize (IH []). by destruct (H5.walk rest at_end []).
Qed.

Lemma link_finishes (leaf : string) (new : H5.obj) (ms : H5.members) :
  H5.link leaf new ms <> Unfinished.
Proof. unfold H5.link. by destruct (H5.get leaf ms). Qed.

Lemma commit_finishes (r : result H5.members) (ms : H5.members) :
  r <> Unfinished -> (H5.commit r ms).1 <> Unfinished.
Proof. by destruct r. Qed.

Lemma recurse_finishes (self : H5Handler) (name : string) (o : H5.obj)
    (ms : H5.members) :
  (_recurse self name o ms).1 <> Unfinished.
Proof.
  destruct o as [data storage|sub]; cbn [_recurse].
  - unfold H5.create_dataset. destruct (H5.components name) as [|q0 q]; [done |].
    unfold bind, H5.require_group.
    pose proof (walk_finishes (removelast (q0 :: q)) Ok ms) as H1.
    destruct (H5.walk (removelast (q0 :: q)) Ok ms) as [ms1|e|]; cbn [H5.commit];
      [|done | by destruct H1].
    destruct (H5.fill_dcpl _ _); [done |].
    apply commit_finishes, walk_finishes. intros ms'. apply link_finishes.
  - unfold H5.create_group. destruct (H5.components name) as [|q0 q]; [done |].
    apply commit_finishes, walk_finishes. intros ms'. apply link_finishes.
Qed.

Lemma visititems_finishes (self : H5Handler) (root dst : H5.members) :
  (H5.visititems root (_recurse self) dst).1 <> Unfinished.
Proof.
  unfold H5.visititems. revert dst.
  induction (H5.visit_members root) as [|it items IH]; intros dst; [done |].
  cbn [for_each]. unfold bind.
  pose proof (recurse_finishes self it.1 it.2 dst) as H.
  destruct (_recurse self it.1 it.2 dst) as [[[]|e|] dst1]; [apply IH | done | done].
Qed.

Section WithSize.
Variable size : H5.members -> N.

Lemma mkstemp_inner_cases (dir pre suf : string) (draws : list (list nat))
    (w : world) (r : result string) (w1 : world) :
  Tempfile.mkstemp_inner dir pre suf draws w = (r, w1) ->
  (exists e, r = Raise e /\ fs w1 = fs w /\ trace w1 = trace w /\
     forall draw, In draw draws ->
       is_Some (fs w !! resolve w
                  (Path.join dir (pre +:+ Tempfile.name_of draw +:+ suf)))) \/
  (exists draw rest,
     let file := Path.join dir (pre +:+ Tempfile.name_of draw +:+ suf) in
     r = Ok file /\ fs w !! resolve w file = None /\
     w1 = emit (EvMkstemp file)
            (with_rng rest (with_fs (insert (resolve w file) empty_file) w))).
Proof.
  induction draws as [|draw rest IH]; cbn [Tempfile.mkstemp_inner].
  - intros [= <- <-]. left. eexists. by repeat split.
  - destruct (fs w !! resolve w _) eqn:E.
    + intros H. destruct (IH H) as [(e & -> & Hfs & Htr & Hall)|Hok]; [|by right].
      left. exists e. repeat split; [done..|].
      intros draw' [<-|Hin]; [by eexists | by apply Hall].
    + intros [= <- <-]. right. by exists draw, rest.
Qed.

Lemma is_dir_container (i : option inode) : is_dir i = true -> container i = None.
Proof. by destruct i as [[sz [|[root|]]]|]. Qed.

Lemma resolve_cwd (w w' : world) : cwd w' = cwd w -> resolve w' = resolve w.
Proof. unfold resolve. by intros ->. Qed.

Lemma with_h5_files_cases (src_path tmp_path : string)
    (body : H5.members -> M H5.members unit) (w : world)
    (r : result unit) (w' : world) :
  is_dir (fs w !! resolve w tmp_path) = false ->
  with_h5_files size src_path tmp_path body w = (r, w') ->
  (container (fs w !! resolve w src_path) = None /\
   (exists e, r = Raise e) /\ w' = emit (EvH5File src_path ModeR) w) \/
  (exists root dst,
     container (fs w !! resolve w src_path) = Some root /\
     body root [] = (r, dst) /\
     w' = h5_store size tmp_path dst
            (emit (EvH5Close tmp_path)
               (h5_store size tmp_path []
                  (emit (EvH5File tmp_path ModeW)
                     (emit (EvH5File src_path ModeR) w))))).
Proof.
  intros Htmp. unfold with_h5_files, bind, h5_file_r.
  destruct (container (fs w !! resolve w src_path)) as [root|].
  2:{ intros [= <- <-]. left. by eauto. }
  unfold h5_file_w. cbn [fs emit]. change (resolve (emit _ w)) with (resolve w).
  rewrite Htmp. destruct (body root []) as [rv dst] eqn:Hbody. cbn [h5_close].
  intros [= <- <-]. right. by exists root, dst.
Qed.

Lemma move_file (src dst : string) (i : inode) (w : world) :
  is_dir (fs w !! resolve w dst) = false ->
  fs w !! resolve w src = Some i ->
  Shutil.move src dst w =
    (Ok tt,
     emit (EvMove src dst)
       (with_fs (fun m => <[resolve w dst := i]> (delete (resolve w src) m)) w)).
Proof.
  intros Hdst Hsrc. unfold Shutil.move, bind. cbn [Os.isdir].
  rewrite Hdst. cbn [ret]. unfold Shutil.rename. by rewrite Hsrc.
Qed.

Lemma container_not_dir (i : option inode) (root : H5.members) :
  container i = Some root -> is_dir i = false.
Proof. by destruct i as [[sz [|[root'|]]]|]. Qed.

Lemma compress_and_replace_run (self : H5Handler) (src_path : string)
    (w : world) (r : result unit) (w' : world) :
  compress_and_replace size self src_path w = (r, w') ->
  run size self src_path w r w'.
Proof.
  unfold compress_and_replace.
  pose (dirname := (Path.split src_path).1).
  assert (Path.split src_path = (dirname, (Path.split src_path).2)) as ->
    by (by destruct (Path.split src_path)).
  unfold bind at 1. unfold Tempfile.mkstemp.
  destruct (is_dir (fs w !! resolve w dirname)) eqn:Hdir.
  2:{ intros [= <- <-]. constructor; [by left | done..]. }
  destruct (Tempfile.mkstemp_inner _ _ _ _ w) as [r1 w1] eqn:Hmk.
  apply mkstemp_inner_cases in Hmk
    as [(e & -> & Hfs & Htr & Hall)|(draw & rest & -> & Hfree & ->)].
  { intros [= <- <-]. constructor; [by right | done..]. }
  set (tmp_path := Path.join _ _) in *.
  assert (temp_for w src_path tmp_path) as Htmp by (split; [by exists draw | done]).
  unfold bind at 1. cbn [Os.print]. unfold bind at 1.
  match goal with |- context [with_h5_files _ _ _ _ ?x] => remember x as w2 eqn:Hw2 end.
  assert (cwd w2 = cwd w) as Hcwd2 by (by subst w2).
  assert (fs w2 = <[resolve w tmp_path := empty_file]> (fs w)) as Hfs2 by (by subst w2).
  assert (trace w2 = trace w ++ [EvMkstemp tmp_path; EvPrint (LogInfo src_path tmp_path)])
    as Htr2 by (subst w2; cbn; by rewrite <- !app_assoc).
  clear Hw2.
  destruct (with_h5_files _ _ _ _ w2) as [r3 w3] eqn:Hwith.
  apply with_h5_files_cases in Hwith.
  2:{ by rewrite (resolve_cwd _ _ Hcwd2), Hfs2, lookup_insert_eq. }
  rewrite (resolve_cwd _ _ Hcwd2), Hfs2 in Hwith.
  destruct Hwith as [(Hsrc & [e ->] & ->)|(root & dst & Hsrc & Hv & ->)].
  { intros [= <- <-]. eapply SourceUnreadable; try done.
    cbn. by rewrite Htr2, <- !app_assoc. }
  assert (resolve w src_path <> resolve w tmp_path) as Hne.
  { intros Heq. by rewrite Heq, lookup_insert_eq in Hsrc. }
  rewrite lookup_insert_ne in Hsrc by done.
  pose proof (visititems_finishes self root []) as Hfin. rewrite Hv in Hfin.
  destruct r3 as [[]|e|]; [| |done]; cycle 1.
  { intros [= <- <-]. eapply WriteFailed; try done.
    - unfold h5_store. cbn [fs emit with_fs].
      change (resolve (emit _ (with_fs _ (emit _ (emit _ w2))))) with (resolve w2).
      change (resolve (emit _ (emit _ w2))) with (resolve w2).
      by rewrite (resolve_cwd _ _ Hcwd2), Hfs2, !insert_insert_eq.
    - cbn. by rewrite Htr2, <- !app_assoc. }
  unfold bind at 1.
  match goal with |- context [Shutil.move _ _ ?x] => remember x as w4 eqn:Hw4 end.
  assert (cwd w4 = cwd w) as Hcwd4 by (by subst w4).
  assert (fs w4 = <[resolve w tmp_path := h5_inode size dst]> (fs w)) as Hfs4.
  { subst w4. unfold h5_store. cbn [fs emit with_fs].
    change (resolve (emit _ (with_fs _ (emit _ (emit _ w2))))) with (resolve w2).
    change (resolve (emit _ (emit _ w2))) with (resolve w2).
    by rewrite (resolve_cwd _ _ Hcwd2), Hfs2, !insert_insert_eq. }
  assert (trace w4 = trace w ++ [EvMkstemp tmp_path; EvPrint (LogInfo src_path tmp_path);
                                 EvH5File src_path ModeR; EvH5File tmp_path ModeW;
                                 EvH5Close tmp_path]) as Htr4.
  { subst w4. cbn. by rewrite Htr2, <- !app_assoc. }
  clear Hw4.
  rewrite (move_file tmp_path src_path (h5_inode size dst)).
  2:{ rewrite (resolve_cwd _ _ Hcwd4), Hfs4, lookup_insert_ne by done.
      by eapply container_not_dir. }
  2:{ by rewrite (resolve_cwd _ _ Hcwd4), Hfs4, lookup_insert_eq. }
  cbn [Os.print]. intros [= <- <-]. eapply Published; try done.
  - cbn [fs emit with_fs]. rewrite (resolve_cwd _ _ Hcwd4), Hfs4.
    by rewrite delete_insert_eq, delete_id.
  - cbn. by rewrite Htr4, <- !app_assoc.
Qed.

End WithSize.
End CompressFacts.

Module WatchFacts.
Import RunFacts CompressFacts.

Lemma is_stable_run (path : string) (wait : Q) (w : world) (r : result bool)
    (w' : world) :
  is_stable path wait w = (r, w') ->
  cwd w' = cwd w /\ last_event_time w' = last_event_time w /\
  exists evs, trace w' = trace w ++ evs /\ Forall waiting evs /\
    (exists size rest, evs = EvGetsize path size :: rest) /\
    (forall b, r = Ok b -> exists s1 s2,
        evs = [EvGetsize path (Some s1); EvSleep wait; EvGetsize path (Some s2)] /\
        b = N.eqb s1 s2) /\
    r <> Unfinished.
Proof.
  unfold is_stable, bind. unfold Os.getsize at 1.
  destruct (fs w !! resolve w path) as [i|].
  2:{ intros [= <- <-]. repeat split. eexists. split; [done |].
      split; [by repeat constructor |]. split; [by eauto |]. by split. }
  cbn [Os.sleep]. unfold Os.getsize.
  match goal with |- context [fs ?x !! resolve ?x path] => destruct (fs x !! resolve x path) as [j|] end.
  - intros [= <- <-]. repeat split. eexists. split; [cbn; by rewrite <- !app_assoc |].
    split; [by repeat constructor |]. split; [by eauto |]. split; [|done].
    intros b [= <-]. by eauto.
  - intros [= <- <-]. repeat split. eexists. split; [cbn; by rewrite <- !app_assoc |].
    split; [by repeat constructor |]. split; [by eauto |]. by split.
Qed.

Lemma wait_until_stable_run (fuel : nat) (path : string) (w : world)
    (r : result unit) (w' : world) :
  wait_until_stable fuel path w = (r, w') ->
  cwd w' = cwd w /\ last_event_time w' = last_event_time w /\
  exists evs, trace w' = trace w ++ evs /\ Forall waiting evs /\
    (fuel <> 0%nat -> exists size rest, evs = EvGetsize path size :: rest) /\
    (r = Ok tt -> exists before s,
        evs = before ++ [EvGetsize path (Some s); EvSleep 1; EvGetsize path (Some s)]).
Proof.
  revert w. induction fuel as [|fuel IH]; intros w; cbn [wait_until_stable].
  - intros [= <- <-]. repeat split. exists []. rewrite app_nil_r. by repeat split.
  - unfold bind at 1. destruct (is_stable path 1 w) as [rs w1] eqn:Hs.
    apply is_stable_run in Hs
      as (Hc1 & Ht1 & evs1 & He1 & Hw1 & (sz & rest & Hfirst) & Hok & Hfin).
    destruct rs as [stable|e|]; [| |done].
    2:{ intros [= <- <-]. repeat split; [done..|]. exists evs1.
        repeat split; [done | done | by eauto | done]. }
    destruct (Hok stable eq_refl) as (s1 & s2 & -> & ->).
    destruct (N.eqb_spec s1 s2) as [->|Hne].
    { intros [= <- <-]. repeat split; [done..|]. eexists.
      repeat split; [done | done | by eauto |]. intros _. by exists [], s2. }
    unfold bind at 1. cbn [Os.print]. unfold bind at 1. cbn [Os.sleep].
    intros Hrec. apply IH in Hrec as (Hc2 & Ht2 & evs2 & He2 & Hw2 & _ & Hok2).
    cbn in Hc2, Ht2, He2.
    repeat split; [congruence | congruence |].
    exists ([EvGetsize path (Some s1); EvSleep 1; EvGetsize path (Some s2)]
              ++ [EvPrint (LogWait path); EvSleep (1 # 2)] ++ evs2).
    split; [rewrite He2, He1; by rewrite <- !app_assoc |].
    split; [repeat (constructor; [done |]); done |].
    split; [by eauto |].
    intros Hr. destruct (Hok2 Hr) as (before & s & ->).
    eexists (_ :: _ :: _ :: _ :: _ :: before), s. reflexivity.
Qed.

End WatchFacts.

(** * Properties of the watcher *)

Section Properties.
Variable size : H5.members -> N.
Import StrFacts PathFacts H5Facts RunFacts CompressFacts WatchFacts.

Lemma filter_candidate (event : FileSystemEvent) :
  is_directory event = false ->
  negb (Str.endswith (Path.basename (src_path event)) ".h5")
    || Str.startswith (Path.basename (src_path event)) "tmp" = false ->
  candidate event.
Proof.
  intros Hdir [Hend Hstart]%orb_false_iff. apply negb_false_iff in Hend.
  split; [done |]. split; [by apply endswith_spec |].
  intros H%startswith_spec. congruence.
Qed.

Lemma filter_not_candidate (event : FileSystemEvent) :
  negb (Str.endswith (Path.basename (src_path event)) ".h5")
    || Str.startswith (Path.basename (src_path event)) "tmp" = true ->
  ~ candidate event.
Proof.
  intros [Hend|Hstart]%orb_true_iff (_ & Hext & Htmp).
  - apply negb_true_iff in Hend. apply endswith_spec in Hext. congruence.
  - by apply Htmp, startswith_spec.
Qed.

(** What [on_created] does with an event that passes its filter. *)
Lemma on_created_candidate (handler : H5Handler) (fuel : nat)
    (event : FileSystemEvent) (w : world) :
  candidate event ->
  on_created size handler fuel event w =
    (wait_until_stable fuel (src_path event) ;;
     try_except (compress_and_replace size handler (src_path event))
       (fun e => Os.print (LogError (src_path event) e)))
      (emit (EvStamp (clock w)) (with_last_event_time (clock w) w)).
Proof.
  intros (Hdir & Hext & Htmp). unfold on_created. rewrite Hdir.
  apply endswith_spec in Hext. rewrite Hext. cbn [negb orb].
  destruct (Str.startswith _ "tmp") eqn:E; [|done].
  by apply startswith_spec in E.
Qed.

Lemma on_created_other (handler : H5Handler) (fuel : nat)
    (event : FileSystemEvent) (w : world) :
  ~ candidate event -> on_created size handler fuel event w = (Ok tt, w).
Proof.
  intros Hno. unfold on_created.
  destruct (is_directory event) eqn:Hdir; [done |].
  destruct (negb _ || _) eqn:E; [done |].
  destruct Hno. by apply filter_candidate.
Qed.

Lemma candidate_dec (event : FileSystemEvent) : candidate event \/ ~ candidate event.
Proof.
  destruct (is_directory event) eqn:Hdir.
  - right. intros (H & _). congruence.
  - destruct (negb (Str.endswith (Path.basename (src_path event)) ".h5")
              || Str.startswith (Path.basename (src_path event)) "tmp") eqn:E.
    + right. by apply filter_not_candidate.
    + left. by apply filter_candidate.
Qed.

Lemma emits_try_compress (handler : H5Handler) (path : string) :
  emits (fun _ => True)
    (try_except (compress_and_replace size handler path)
       (fun e => Os.print (LogError path e))).
Proof.
  apply emits_try; [|intros e; by apply emits_print].
  intros w. eapply advances_weaken; [|apply emits_compress_and_replace]. done.
Qed.

Lemma on_created_candidate_run (handler : H5Handler) (fuel : nat)
    (event : FileSystemEvent) (w : world) :
  candidate event ->
  last_event_time (on_created size handler fuel event w).2 = clock w /\
  exists evs,
    trace (on_created size handler fuel event w).2 =
      trace w ++ EvStamp (clock w) :: evs /\
    (fuel <> 0%nat -> exists sz rest, evs = EvGetsize (src_path event) sz :: rest).
Proof.
  intros Hc. rewrite (on_created_candidate _ _ _ _ Hc). unfold bind.
  set (w0 := emit _ _).
  destruct (wait_until_stable fuel (src_path event) w0) as [r1 w1] eqn:Hwait.
  apply wait_until_stable_run in Hwait as (Hc1 & Ht1 & evs1 & He1 & _ & Hfirst & _).
  assert (exists w2, advances (fun _ => True) w1 w2 /\
            match r1 with
            | Ok _ => try_except (compress_and_replace size handler (src_path event))
                        (fun e => Os.print (LogError (src_path event) e)) w1
            | Raise e => (Raise e, w1)
            | Unfinished => (Unfinished, w1)
            end.2 = w2) as (w2 & (Hc2 & Ht2 & evs2 & He2 & _) & Hw2).
  { destruct r1; eexists; (split; [|reflexivity]);
      [apply emits_try_compress | apply advances_refl..]. }
  rewrite !Hw2.
  split; [by rewrite Ht2, Ht1 |].
  exists (evs1 ++ evs2). split.
  - rewrite He2, He1. subst w0. cbn. by rewrite <- !app_assoc.
  - intros Hf. destruct (Hfirst Hf) as (sz & rest & ->). by eauto.
Qed.

(** C3: a creation event is taken up (the time stamp is set to the
    current time and the stability wait of the job starts) if and only
    if it is not a directory event, the base name of its path ends in
    [".h5"] and that base name does not start with ["tmp"]; any other
    event, in particular one for a name that starts with ["tmp"]
    whatever its extension, leaves everything as it was. *)
Theorem on_created_accepts_iff (handler : H5Handler) (fuel : nat)
    (event : FileSystemEvent) (w : world) :
  let r := (on_created size handler fuel event w).1 in
  let w' := (on_created size handler fuel event w).2 in
  (candidate event <->
     exists evs, trace w' = trace w ++ EvStamp (clock w) :: evs) /\
  (candidate event ->
     last_event_time w' = clock w /\
     (fuel <> 0%nat -> exists sz evs,
        trace w' = trace w ++ EvStamp (clock w) :: EvGetsize (src_path event) sz :: evs)) /\
  (~ candidate event -> r = Ok tt /\ w' = w) /\
  ((exists rest, Path.basename (src_path event) = "tmp" +:+ rest) ->
     r = Ok tt /\ w' = w).
Proof.
  cbn zeta.
  assert (~ candidate event ->
          (on_created size handler fuel event w).1 = Ok tt /\
          (on_created size handler fuel event w).2 = w) as Hother.
  { intros Hno. by rewrite (on_created_other _ _ _ _ Hno). }
  pose proof (on_created_candidate_run handler fuel event w) as Hcand.
  split; [split | split; [|split]].
  - intros Hc. destruct (Hcand Hc) as (_ & evs & He & _). by exists evs.
  - intros [evs He]. destruct (candidate_dec event) as [|Hno]; [done |].
    destruct (Hother Hno) as [_ Hw]. rewrite Hw in He.
    rewrite <- (app_nil_r (trace w)) in He at 1.
    by apply app_inv_head in He.
  - intros Hc. destruct (Hcand Hc) as (Hlast & evs & He & Hfirst).
    split; [done |]. intros Hf. destruct (Hfirst Hf) as (sz & rest & ->). by eauto.
  - exact Hother.
  - intros Htmp. apply Hother. by intros (_ & _ & H).
Qed.

Lemma waiting_not_compressing (e : event) : waiting e -> ~ compressing e.
Proof. destruct e as [| | | | | | |[]]; cbn; tauto. Qed.


Lemma attempt_returns (handler : H5Handler) (path : string) (w : world) :
  exists w', attempt size handler path w = (Ok tt, w') /\
    forall e w1, compress_and_replace size handler path w = (Raise e, w1) ->
      w' = emit (EvPrint (LogError path e)) w1.
Proof.
  unfold attempt, try_except.
  destruct (compress_and_replace size handler path w) as [r w1] eqn:Hrun.
  apply compress_and_replace_run in Hrun.
  destruct Hrun; (eexists; split; [reflexivity |]); by intros ? ? [= <- <-].
Qed.

Lemma emits_attempt (handler : H5Handler) (path : string) :
  emits (fun e => ~ waiting e) (attempt size handler path).
Proof.
  apply emits_try; [|intros e; apply emits_print; by intros []].
  intros w. eapply advances_weaken; [|apply emits_compress_and_replace].
  intros e He Hw. by apply (waiting_not_compressing e).
Qed.


Lemma compress_existing_fold (handler : H5Handler)
    (walk : list (string * list string * list string)) (w : world) :
  compress_existing size handler walk w =
    (Ok tt, fold_left (fun w path => (attempt size handler path w).2) (matching walk) w).
Proof.
  unfold compress_existing, matching. revert w.
  induction walk as [|[[root dirs] files] walk IH]; intros w; [done |].
  cbn [for_each flat_map fst snd]. rewrite fold_left_app. unfold bind at 1.
  assert (forall w0,
            for_each files (fun fname =>
              if negb (Str.endswith fname ".h5") || Str.startswith fname "tmp"
              then ret tt
              else try_except (compress_and_replace size handler (Path.join root fname))
                     (fun e => Os.print (LogError (Path.join root fname) e))) w0 =
            (Ok tt,
             fold_left (fun w path => (attempt size handler path w).2)
               (flat_map (fun fname =>
                  if negb (Str.endswith fname ".h5") || Str.startswith fname "tmp"
                  then [] else [Path.join root fname]) files) w0)) as Hfiles.
  { induction files as [|fname files IHf]; intros w0; [done |].
    cbn [for_each flat_map]. rewrite fold_left_app. unfold bind.
    destruct (negb _ || _).
    - cbn [ret fold_left]. apply IHf.
    - fold (attempt size handler (Path.join root fname)).
      destruct (attempt_returns handler (Path.join root fname) w0) as (w1 & Hatt & _).
      cbn [fold_left]. rewrite !Hatt. cbn [snd]. apply IHf. }
  rewrite Hfiles. apply IH.
Qed.


Lemma fold_attempt_advances (handler : H5Handler) (paths : list string) (w : world) :
  advances (fun e => ~ waiting e) w
    (fold_left (fun w path => (attempt size handler path w).2) paths w).
Proof.
  revert w. induction paths as [|path paths IH]; intros w; [apply advances_refl |].
  cbn [fold_left]. eapply advances_trans; [apply emits_attempt | apply IH].
Qed.

(** C9, as the code has it: in batch mode every file of the walk whose
    name ends in [".h5"] and does not start with ["tmp"] is passed, in
    the order of the walk and whatever happened to the files before it,
    to the [try] block around [compress_and_replace]; the loop performs
    no size read and no sleep, so the stability probe is not run. *)
Theorem batch_compresses_without_probe (handler : H5Handler)
    (walk : list (string * list string * list string)) (w : world) :
  let w' := (compress_existing size handler walk w).2 in
  compress_existing size handler walk w =
    (Ok tt, fold_left (fun w path => (attempt size handler path w).2) (matching walk) w) /\
  exists evs, trace w' = trace w ++ evs /\
    Forall (fun e => match e with
                     | EvGetsize _ _ | EvSleep _ => False
                     | _ => True
                     end) evs.
Proof.
  cbn zeta. split; [apply compress_existing_fold |].
  rewrite compress_existing_fold. cbn [snd].
  destruct (fold_attempt_advances handler (matching walk) w) as (_ & _ & evs & He & Hall).
  exists evs. split; [done |]. eapply Forall_impl; [exact Hall |].
  intros [] H; cbn in *; tauto.
Qed.

Lemma dispatch_main (handler : H5Handler) (fuel : nat) (event : FileSystemEvent)
    (s : system) :
  sys_main (dispatch size handler fuel event s) = sys_main s.
Proof.
  unfold dispatch. destruct (sys_observer s); [|done..].
  by destruct (on_created size handler fuel event (sys_world s)).
Qed.

Lemma poll_main (args : Args) (s : system) :
  sys_main (poll args s) = IdleShutdown <->
  (idle_timeout args < clock (sys_world s) + 1 - last_event_time (sys_world s))%Q.
Proof.
  unfold poll. cbn [Os.sleep clock last_event_time emit elapse with_fs].
  destruct (Qle_bool _ _) eqn:E; cbn [negb sys_main].
  - apply Qle_bool_iff in E. split; [done |]. intros H. by apply Qlt_not_le in H.
  - split; [intros _ | done]. apply Qnot_le_lt. intros H%Qle_bool_iff. congruence.
Qed.

(** C8: the watch loop of [main] comes to its idle shutdown at a
    wake-up of the main thread at which the time elapsed since the time
    stamp is strictly greater than the idle timeout, and in no other
    way; the handler sets the time stamp to the time at which a
    candidate event is dispatched to it, before the job runs, so the
    idle time is counted from the last dispatch. *)
Theorem idle_shutdown_iff (args : Args) (handler : H5Handler) (s : system)
    (o : occurrence) :
  let s' := step size args handler s o in
  let w := sys_world s in
  (sys_main s' = IdleShutdown <->
     sys_main s = IdleShutdown \/
     (sys_main s = Watching /\ o = Wake /\
      (idle_timeout args < clock w + 1 - last_event_time w)%Q)) /\
  (forall event fuel,
     sys_main s = Watching -> sys_observer s = Dispatching ->
     o = Created event fuel -> candidate event ->
     last_event_time (sys_world s') = clock w) /\
  (sys_main s = Watching -> o = Wake ->
     last_event_time (sys_world s') = last_event_time w /\
     (sys_main s' = Watching <->
        (clock w + 1 - last_event_time w <= idle_timeout args)%Q)).
Proof.
  cbn zeta. unfold step. split; [|split].
  - destruct (sys_main s) eqn:Hmain.
    + destruct o as [event fuel| |].
      * rewrite dispatch_main, Hmain. split; [done |].
        intros [|(_ & ? & _)]; done.
      * rewrite poll_main. split; [by right | by intros [|(_ & _ & ?)]].
      * cbn. split; [done |]. intros [|(_ & ? & _)]; done.
    + rewrite Hmain. split; [by left | done].
    + rewrite Hmain. split; [done |]. intros [|(? & _)]; done.
  - intros event fuel Hmain Hobs -> Hc. rewrite Hmain.
    unfold dispatch. rewrite Hobs.
    pose proof (on_created_candidate_run handler fuel event (sys_world s) Hc) as [H _].
    by destruct (on_created size handler fuel event (sys_world s)).
  - intros Hmain ->. rewrite Hmain. unfold poll.
    cbn [Os.sleep clock last_event_time emit elapse with_fs].
    destruct (Qle_bool _ _) eqn:E; cbn [negb sys_main sys_world last_event_time emit].
    + split; [done |]. split; [intros _; by apply Qle_bool_iff | done].
    + split; [done |]. split; [done |]. intros H%Qle_bool_iff. congruence.
Qed.

(** The wait loop returns or raises once the other processes have gone
    quiet: one more iteration than they have turns left is enough. *)
Lemma wait_until_stable_returns (fuel : nat) (path : string) (w : world) :
  length (others w) < fuel -> (wait_until_stable fuel path w).1 <> Unfinished.
Proof.
  revert w. induction fuel as [|fuel IH]; intros w Hlen; [lia |].
  cbn [wait_until_stable]. unfold bind at 1. unfold is_stable, bind.
  unfold Os.getsize at 1.
  destruct (fs w !! resolve w path) as [i|] eqn:Hi; [|done].
  cbn [Os.sleep]. unfold Os.getsize.
  cbn [fs others emit elapse with_fs].
  change (resolve (emit _ (elapse _ (with_fs _ (emit _ w))))) with (resolve w).
  destruct (act (hd Quiet (others w)) (fs w) !! resolve w path) as [j|] eqn:Hj; [|done].
  cbn [ret]. destruct (N.eqb_spec (st_size i) (st_size j)) as [|Hne]; [done |].
  cbn [Os.print Os.sleep]. apply IH. cbn [others emit elapse with_fs].
  destruct (others w) as [|a l]; [|destruct l; cbn in *; lia].
  cbn in Hj. congruence.
Qed.

(** With a directory to write to, a free name among the draws, a
    well-formed source container and settings [create_dataset]
    accepts, the run returns. *)
Lemma compress_and_replace_succeeds (handler : H5Handler) (src_path : string)
    (w : world) (root : H5.members) :
  is_dir (fs w !! resolve w (Path.split src_path).1) = true ->
  (exists draw, In draw (rng w) /\
     fs w !! resolve w
       (Path.join (resolve w (Path.split src_path).1)
          (Tempfile.template +:+ Tempfile.name_of draw +:+ ".h5")) = None) ->
  container (fs w !! resolve w src_path) = Some root ->
  Logical.well_formed (H5.Group root) = true ->
  Logical.accepted (kwargs handler) (H5.Group root) = true ->
  (compress_and_replace size handler src_path w).1 = Ok tt.
Proof.
  intros Hdir (draw & Hin & Hfree) Hsrc Hwf Hacc.
  destruct (compress_and_replace size handler src_path w) as [r w'] eqn:Hrun.
  apply compress_and_replace_run in Hrun. cbn [fst].
  destruct Hrun as [e w' [Hno|Hall] _ _|e tmp w' [_ Htmp] Hbad _ _
                    |e tmp root' dst w' _ _ Hsrc' Hvisit _ _|]; [| | | |done].
  - congruence.
  - destruct (Hall draw Hin) as [i Hi]. congruence.
  - rewrite lookup_insert_ne in Hbad; [congruence |].
    intros Heq. rewrite Heq in Htmp. by rewrite Htmp in Hsrc.
  - rewrite Hsrc in Hsrc'. injection Hsrc' as <-.
    pose proof (rebuild_root handler root Hwf) as Hbuilt.
    unfold rebuilt in Hbuilt. rewrite Hacc in Hbuilt. congruence.
Qed.


(** C4: the temporary file of a run of [compress_and_replace] is made
    in the directory of the target file, its name starts with ["tmp"]
    and ends in [".h5"], and [on_created] returns at once, changing
    nothing, on a creation event for it. *)
Theorem temp_file_ignored (handler : H5Handler) (target : string) (w : world) :
  let w' := (compress_and_replace size handler target w).2 in
  exists evs, trace w' = trace w ++ evs /\
    Forall (fun e =>
      match e with
      | EvMkstemp tmp_path =>
          (Path.split tmp_path).1 = resolve w (Path.split target).1 /\
          (exists rest, Path.basename tmp_path = "tmp" +:+ rest +:+ ".h5") /\
          forall handler' fuel w0,
            on_created size handler' fuel
              {| src_path := tmp_path; is_directory := false |} w0 = (Ok tt, w0)
      | _ => True
      end) evs.
Proof.
  cbn zeta.
  destruct (compress_and_replace size handler target w) as [r w'] eqn:Hrun.
  apply compress_and_replace_run in Hrun. cbn [snd].
  assert (forall tmp_path, temp_for w target tmp_path ->
            (Path.split tmp_path).1 = resolve w (Path.split target).1 /\
            (exists rest, Path.basename tmp_path = "tmp" +:+ rest +:+ ".h5") /\
            forall handler' fuel w0,
              on_created size handler' fuel
                {| src_path := tmp_path; is_directory := false |} w0 = (Ok tt, w0))
    as Htemp.
  { intros tmp_path [[draw ->] _].
    pose proof (abspath_shape (cwd w) (Path.split target).1) as Hshape.
    pose proof (tmp_name_sep_free draw) as Hfree.
    fold (resolve w (Path.split target).1) in Hshape.
    rewrite (split_join _ _ Hshape Hfree).
    split; [done |]. split.
    - rewrite (basename_join _ _ Hshape Hfree). by exists (Tempfile.name_of draw).
    - intros handler' fuel w0. apply on_created_other.
      intros (_ & _ & Hno). apply Hno. cbn [src_path].
      rewrite (basename_join _ _ Hshape Hfree). by eexists. }
  destruct Hrun as [e w' _ Hfs Htr|e tmp w' Htmp _ _ Htr|e tmp root dst w' Htmp _ _ _ _ Htr
                    |tmp root dst w' Htmp _ _ _ _ Htr].
  - exists []. by rewrite app_nil_r.
  - eexists. split; [exact Htr |].
    constructor; [by apply Htemp | by repeat constructor].
  - eexists. split; [exact Htr |].
    constructor; [by apply Htemp | by repeat constructor].
  - eexists. split; [exact Htr |].
    constructor; [by apply Htemp | by repeat constructor].
Qed.

(** C6: a run of [compress_and_replace] that raises leaves every file
    that existed before it, the original among them, exactly as it
    was: what it has written is the temporary file, at a path where
    there was no file.  A run that returns has changed nothing but the
    original path, by the final move. *)
Theorem original_untouched_on_failure (handler : H5Handler) (src_path : string)
    (w : world) :
  let r := (compress_and_replace size handler src_path w).1 in
  let w' := (compress_and_replace size handler src_path w).2 in
  (forall e, r = Raise e ->
     (forall k, is_Some (fs w !! k) -> fs w' !! k = fs w !! k) /\
     (is_Some (fs w !! resolve w src_path) ->
        fs w' !! resolve w src_path = fs w !! resolve w src_path) /\
     Forall (fun ev => match ev with EvMove _ _ => False | _ => True end)
       (drop (length (trace w)) (trace w'))) /\
  (r = Ok tt ->
     (forall k, k <> resolve w src_path -> fs w' !! k = fs w !! k) /\
     exists evs tmp_path,
       trace w' = trace w ++ evs ++ [EvMove tmp_path src_path; EvPrint (LogDone src_path)] /\
       Forall (fun ev => match ev with EvMove _ _ => False | _ => True end) evs).
Proof.
  cbn zeta.
  destruct (compress_and_replace size handler src_path w) as [r w'] eqn:Hrun.
  apply compress_and_replace_run in Hrun. cbn [fst snd].
  assert (forall (tmp_path : string) (i : inode),
            fs w !! resolve w tmp_path = None ->
            fs w' = <[resolve w tmp_path := i]> (fs w) ->
            forall k, is_Some (fs w !! k) -> fs w' !! k = fs w !! k) as Hfresh.
  { intros tmp_path i Hfree -> k [j Hk]. rewrite lookup_insert_ne; [done |].
    intros <-. congruence. }
  destruct Hrun as [e w' _ Hfs Htr|e tmp w' [_ Hfree] _ Hfs Htr
                    |e tmp root dst w' [_ Hfree] _ _ _ Hfs Htr
                    |tmp root dst w' Htmp _ _ _ Hfs Htr].
  - split; [|done]. intros _ _. rewrite Hfs, Htr, drop_all. done.
  - split; [|done]. intros _ _.
    pose proof (Hfresh _ _ Hfree Hfs) as H. split; [done |]. split; [by apply H |].
    rewrite Htr, drop_app_length. by repeat constructor.
  - split; [|done]. intros _ _.
    pose proof (Hfresh _ _ Hfree Hfs) as H. split; [done |]. split; [by apply H |].
    rewrite Htr, drop_app_length. by repeat constructor.
  - split; [done |]. intros _. split.
    + intros k Hk. by rewrite Hfs, lookup_insert_ne.
    + eexists [_; _; _; _; _], tmp. split; [exact Htr |]. by repeat constructor.
Qed.


End Properties.

(** * The sample directory *)

Import Sample.


(** C2, on the code: [b.h5] is removed during the sleep of the
    stability probe.  The second size read raises; the exception is not
    caught in [on_created], whose [try] block starts after the wait
    loop, and ends the observer thread: the event for [a.h5] that
    follows is never handled, although the same event, delivered alone,
    gets [a.h5] recompressed. *)
Example probe_error_stops_observer :
  (on_created size gzip4 5 (created "/data/b.h5") vanishing).1 =
    Raise (OSError "No such file or directory") /\
  trace (on_created size gzip4 5 (created "/data/b.h5") vanishing).2 =
    [EvStamp 100; EvGetsize "/data/b.h5" (Some 512%N); EvSleep 1;
     EvGetsize "/data/b.h5" None] /\
  sys_observer (dispatch size gzip4 5 (created "/data/b.h5") (start vanishing)) =
    Crashed (OSError "No such file or directory") /\
  container
    (fs (sys_world
           (watch size args gzip4
              [Created (created "/data/b.h5") 5; Created (created "/data/a.h5") 5]
              (start vanishing))) !! "/data/a.h5") = Some root_a /\
  container
    (fs (sys_world
           (watch size args gzip4 [Created (created "/data/a.h5") 5]
              (start vanishing))) !! "/data/a.h5") =
    Some (Logical.restore_members (kwargs gzip4) root_a).
Proof. vm_compute. repeat split. Qed.

(** C9, on the code: the batch loop publishes [a.h5] without a single
    size read, so no publication of a batch run is preceded by a
    successful stability probe. *)
Lemma batch_publishes_unprobed :
  ~ (forall pre e post,
       trace (compress_existing size gzip4 [("/data", [], ["a.h5"])] world0).2 =
         trace world0 ++ pre ++ e :: post ->
       compressing e -> exists path, probe_passed path pre).
Proof.
  intros H.
  destruct (H [] (EvMkstemp "/data/tmpabcdefgh.h5")
              [EvPrint (LogInfo "/data/a.h5" "/data/tmpabcdefgh.h5");
               EvH5File "/data/a.h5" ModeR; EvH5File "/data/tmpabcdefgh.h5" ModeW;
               EvH5Close "/data/tmpabcdefgh.h5";
               EvMove "/data/tmpabcdefgh.h5" "/data/a.h5";
               EvPrint (LogDone "/data/a.h5")])
    as (path & before & s & after & Heq); [by vm_compute | exact I |].
  by destruct before.
Qed.

(** The run on [c.h5] raises in [create_dataset], which refuses the
    gzip filter for the scalar dataset: [c.h5] is as before, the
    temporary file is left behind with the empty container in it, and
    the error line is printed by the [try] block. *)
Example scalar_dataset_fails :
  (compress_and_replace size gzip4 "/data/c.h5" world0).1 =
    Raise (TypeError "Scalar datasets don't support chunk/filter options") /\
  fs (compress_and_replace size gzip4 "/data/c.h5" world0).2 !! "/data/c.h5" =
    fs world0 !! "/data/c.h5" /\
  fs (compress_and_replace size gzip4 "/data/c.h5" world0).2 !! "/data/tmpabcdefgh.h5" =
    Some (h5_inode size []) /\
  last (trace (attempt size gzip4 "/data/c.h5" world0).2) =
    Some (EvPrint (LogError "/data/c.h5"
            (TypeError "Scalar datasets don't support chunk/filter options"))).
Proof. vm_compute. repeat split. Qed.

(** The handler on [a.h5]: stamp, one successful probe, recompression,
    publication. *)
Example on_created_trace :
  trace (on_created size gzip4 1 (created "/data/a.h5") world0).2 =
    [EvStamp 100;
     EvGetsize "/data/a.h5" (Some 2144%N); EvSleep 1;
     EvGetsize "/data/a.h5" (Some 2144%N);
     EvMkstemp "/data/tmpabcdefgh.h5";
     EvPrint (LogInfo "/data/a.h5" "/data/tmpabcdefgh.h5");
     EvH5File "/data/a.h5" ModeR; EvH5File "/data/tmpabcdefgh.h5" ModeW;
     EvH5Close "/data/tmpabcdefgh.h5";
     EvMove "/data/tmpabcdefgh.h5" "/data/a.h5";
     EvPrint (LogDone "/data/a.h5")].
Proof. vm_compute. reflexivity. Qed.

(** Events the filter drops: a directory, another extension, a
    temporary file of the script itself. *)
Example filtered_events :
  on_created size gzip4 1 {| src_path := "/data/run.h5"; is_directory := true |} world0
    = (Ok tt, world0) /\
  on_created size gzip4 1 (created "/data/notes.txt") world0 = (Ok tt, world0) /\
  on_created size gzip4 1 (created "/data/tmpabcdefgh.h5") world0 = (Ok tt, world0).
Proof. vm_compute. repeat split. Qed.

(** The batch loop over [/data] attempts [a.h5] and [c.h5], in that
    order, and nothing else. *)
Example batch_attempts :
  matching [("/data", [], ["a.h5"; "notes.txt"; "tmpabcdefgh.h5"; "c.h5"])] =
    ["/data/a.h5"; "/data/c.h5"].
Proof. reflexivity. Qed.

(** With a timeout of five seconds and no event, the sixth wake-up of
    the main thread is the first at which the loop stops; an event
    dispatched after the third wake-up defers the stop. *)
Example idle_after_six_polls :
  sys_main (watch size args gzip4 [Wake; Wake; Wake; Wake; Wake] (start world0)) = Watching /\
  sys_main (watch size args gzip4 [Wake; Wake; Wake; Wake; Wake; Wake] (start world0)) =
    IdleShutdown /\
  sys_main (watch size args gzip4
              [Wake; Wake; Wake; Created (created "/data/a.h5") 1;
               Wake; Wake; Wake; Wake] (start world0)) = Watching.
Proof. vm_compute. repeat split. Qed.

(** * Further properties of [compress.py] *)

Section Further.
Variable size : H5.members -> N.
Import StrFacts PathFacts H5Facts RunFacts CompressFacts WatchFacts.

(** X1: once the other processes have stopped touching the file
    system, [on_created] comes to an end: with more iterations of the
    wait loop than they have turns left, it returns or raises. *)
Theorem on_created_finishes (handler : H5Handler) (fuel : nat)
    (event : FileSystemEvent) (w : world) :
  length (others w) < fuel ->
  (on_created size handler fuel event w).1 <> Unfinished.
Proof.
  intros Hlen. destruct (candidate_dec event) as [Hc|Hno].
  2:{ by rewrite (on_created_other size _ _ _ _ Hno). }
  rewrite (on_created_candidate size _ _ _ _ Hc). unfold bind.
  set (w0 := emit _ _).
  pose proof (wait_until_stable_returns fuel (src_path event) w0 Hlen) as Hwait.
  destruct (wait_until_stable fuel (src_path event) w0) as [[[]|e|] w1]; [|done..].
  fold (attempt size handler (src_path event)).
  by destruct (attempt_returns size handler (src_path event) w1) as (w2 & -> & _).
Qed.






(** X3: the compression level matters for gzip only: two handlers with
    the same filter, not gzip, behave alike whatever their levels. *)
Theorem level_ignored_unless_gzip (self self' : H5Handler) :
  compression self = compression self' ->
  compression self <> Some H5.Gzip ->
  (forall src_path w,
     compress_and_replace size self src_path w =
       compress_and_replace size self' src_path w) /\
  (forall fuel event w,
     on_created size self fuel event w = on_created size self' fuel event w) /\
  (forall walk w,
     compress_existing size self walk w = compress_existing size self' walk w).
Proof.
  intros Heq Hno.
  assert (kwargs self = kwargs self') as Hkw.
  { unfold kwargs. rewrite <- Heq. by destruct (compression self) as [[]|]. }
  assert (forall src_path w,
            compress_and_replace size self src_path w =
              compress_and_replace size self' src_path w) as Hrun.
  { intros src_path w. unfold compress_and_replace, _recurse. by rewrite Hkw. }
  split; [exact Hrun |]. split.
  - intros fuel event w. unfold on_created.
    destruct (is_directory event); [done |]. destruct (negb _ || _); [done |].
    unfold bind, try_except.
    destruct (Os.time w) as [[now|e|] w0]; [|done..].
    destruct (stamp now w0) as [[[]|e|] w1]; [|done..].
    destruct (wait_until_stable fuel (src_path event) w1) as [[[]|e|] w2]; [|done..].
    by rewrite Hrun.
  - intros walk w. rewrite !compress_existing_fold. f_equal.
    assert (forall path w0, attempt size self path w0 = attempt size self' path w0)
      as Hatt by (intros path w0; unfold attempt, try_except; by rewrite Hrun).
    revert w. induction (matching walk) as [|path paths IH]; intros w; [done |].
    cbn [fold_left]. rewrite Hatt. apply IH.
Qed.

Lemma reported_app (xs ys : list event) :
  reported (xs ++ ys) = reported xs ++ reported ys.
Proof. unfold reported. apply flat_map_app. Qed.

Lemma attempt_reports (handler : H5Handler) (path : string) (w : world) :
  exists evs,
    trace (attempt size handler path w).2 = trace w ++ evs /\ reported evs = [path].
Proof.
  unfold attempt, try_except.
  destruct (compress_and_replace size handler path w) as [r w1] eqn:Hrun.
  apply compress_and_replace_run in Hrun.
  destruct Hrun as [e w1 _ _ Htr|e tmp w1 _ _ _ Htr|e tmp root dst w1 _ _ _ _ _ Htr
                    |tmp root dst w1 _ _ _ _ _ Htr]; cbn [Os.print snd trace emit].
  - exists [EvPrint (LogError path e)]. by rewrite Htr.
  - eexists. rewrite Htr, <- app_assoc. split; [reflexivity | done].
  - eexists. rewrite Htr, <- app_assoc. split; [reflexivity | done].
  - eexists. split; [exact Htr | done].
Qed.

(** X4: the batch loop reports every file it keeps exactly once, with
    a [DONE] or an [ERROR] line, in the order of the walk, and reports
    no other file. *)
Theorem batch_reports_each_file_once (handler : H5Handler)
    (walk : list (string * list string * list string)) (w : world) :
  exists evs,
    trace (compress_existing size handler walk w).2 = trace w ++ evs /\
    reported evs = matching walk.
Proof.
  rewrite compress_existing_fold. cbn [snd]. revert w.
  induction (matching walk) as [|path paths IH]; intros w.
  - exists []. by rewrite app_nil_r.
  - cbn [fold_left].
    destruct (attempt_reports handler path w) as (evs1 & He1 & Hr1).
    destruct (IH (attempt size handler path w).2) as (evs2 & He2 & Hr2).
    exists (evs1 ++ evs2). split.
    + by rewrite He2, He1, app_assoc.
    + by rewrite reported_app, Hr1, Hr2.
Qed.

(** X5: the handler reports the file of an event it has taken up once
    the wait is over, and reports nothing otherwise: a [DONE] or an
    [ERROR] line for the path is printed exactly when [on_created]
    returns on a candidate event. *)
Theorem on_created_reports (handler : H5Handler) (fuel : nat)
    (event : FileSystemEvent) (w : world) :
  let r := (on_created size handler fuel event w).1 in
  let w' := (on_created size handler fuel event w).2 in
  exists evs, trace w' = trace w ++ evs /\
    (candidate event -> r = Ok tt -> reported evs = [src_path event]) /\
    (r <> Ok tt -> reported evs = []) /\
    (~ candidate event -> reported evs = []).
Proof.
  cbn zeta. destruct (candidate_dec event) as [Hc|Hno].
  2:{ rewrite (on_created_other size _ _ _ _ Hno). exists []. by rewrite app_nil_r. }
  rewrite (on_created_candidate size _ _ _ _ Hc). unfold bind.
  set (w0 := emit _ _).
  destruct (wait_until_stable fuel (src_path event) w0) as [r1 w1] eqn:Hwait.
  apply wait_until_stable_run in Hwait as (_ & _ & evs1 & He1 & Hw1 & _ & _).
  assert (reported (EvStamp (clock w) :: evs1) = []) as Hquiet.
  { cbn. clear -Hw1. induction Hw1 as [|e evs He _ IH]; [done |].
    cbn. rewrite IH. by destruct e as [| | | | | | |[]]. }
  assert (trace w1 = trace w ++ EvStamp (clock w) :: evs1) as Htr1.
  { rewrite He1. subst w0. cbn. by rewrite <- app_assoc. }
  destruct r1 as [[]|e|].
  - fold (attempt size handler (src_path event)).
    destruct (attempt_reports handler (src_path event) w1) as (evs2 & He2 & Hr2).
    destruct (attempt_returns size handler (src_path event) w1) as (w2 & Hatt & _).
    rewrite Hatt in He2 |- *. cbn [fst snd] in *.
    exists ((EvStamp (clock w) :: evs1) ++ evs2).
    split; [by rewrite He2, Htr1, <- app_assoc |].
    rewrite reported_app, Hquiet, Hr2. by repeat split.
  - exists (EvStamp (clock w) :: evs1). by repeat split.
  - exists (EvStamp (clock w) :: evs1). by repeat split.
Qed.







End Further.

(** ** The further properties on the sample run directory *)

Lemma on_created_finishes_witness :
  (length (others vanishing) < 3)%nat /\
  (on_created Sample.size gzip4 3 (created "/data/b.h5") vanishing).1 <> Unfinished.
Proof.
  assert (length (others vanishing) < 3)%nat as H by (vm_compute; lia).
  split; [exact H |].
  exact (on_created_finishes Sample.size gzip4 3 (created "/data/b.h5") vanishing H).
Defined.


Lemma level_ignored_unless_gzip_witness :
  compress_and_replace Sample.size lzf1 "/data/a.h5" world0 =
    compress_and_replace Sample.size lzf9 "/data/a.h5" world0.
Proof.
  assert (compression lzf1 = compression lzf9) as H1 by reflexivity.
  assert (compression lzf1 <> Some H5.Gzip) as H2 by (vm_compute; discriminate).
  exact (proj1 (level_ignored_unless_gzip Sample.size lzf1 lzf9 H1 H2) "/data/a.h5" world0).
Defined.



(** * The files a recompression leaves alone *)

Section Frame.
Variable size : H5.members -> N.
Import StrFacts PathFacts H5Facts RunFacts CompressFacts WatchFacts.

Lemma run_frame (handler : H5Handler) (src_path : string) (w w' : world)
    (r : result unit) (p : string) (i : inode) :
  compress_and_replace size handler src_path w = (r, w') ->
  p <> resolve w src_path -> fs w !! p = Some i ->
  cwd w' = cwd w /\ fs w' !! p = Some i.
Proof.
  intros Hrun Hp Hi.
  destruct (emits_compress_and_replace size handler src_path w) as (Hcwd & _).
  rewrite Hrun in Hcwd. split; [done |].
  apply compress_and_replace_run in Hrun.
  destruct Hrun as [e w' _ Hfs _|e tmp w' [_ Hnew] _ Hfs _
                    |e tmp root dst w' [_ Hnew] _ _ _ Hfs _
                    |tmp root dst w' _ _ _ _ Hfs _]; rewrite Hfs.
  - done.
  - rewrite lookup_insert_ne; [done | congruence].
  - rewrite lookup_insert_ne; [done | congruence].
  - by rewrite lookup_insert_ne.
Qed.

Lemma attempt_frame (handler : H5Handler) (path : string) (w : world)
    (p : string) (i : inode) :
  p <> resolve w path -> fs w !! p = Some i ->
  cwd (attempt size handler path w).2 = cwd w /\
  fs (attempt size handler path w).2 !! p = Some i.
Proof.
  intros Hp Hi. unfold attempt, try_except.
  destruct (compress_and_replace size handler path w) as [[[]|e|] w1] eqn:Hrun;
    by destruct (run_frame _ _ _ _ _ p i Hrun Hp Hi).
Qed.

(** X18: a run of [compress_and_replace], however it ends, leaves
    every file that was there, other than [src_path], as it was: the
    temporary file takes a name that was free, and only [src_path] is
    replaced. *)
Theorem other_files_untouched (handler : H5Handler) (src_path : string)
    (w w' : world) (r : result unit) (p : string) (i : inode) :
  compress_and_replace size handler src_path w = (r, w') ->
  p <> resolve w src_path -> fs w !! p = Some i ->
  fs w' !! p = Some i.
Proof. intros Hrun Hp Hi. by destruct (run_frame _ _ _ _ _ p i Hrun Hp Hi). Qed.

(** X19: the batch loop leaves every file that was there and that the
    name filter does not keep as it was. *)
Theorem batch_touches_only_matching (handler : H5Handler)
    (walk : list (string * list string * list string)) (w : world)
    (p : string) (i : inode) :
  p ∉ map (resolve w) (matching walk) -> fs w !! p = Some i ->
  fs (compress_existing size handler walk w).2 !! p = Some i.
Proof.
  rewrite compress_existing_fold. cbn [snd]. revert w.
  induction (matching walk) as [|path paths IH]; intros w Hp Hi; [done |].
  cbn [fold_left]. cbn [map] in Hp. apply not_elem_of_cons in Hp as [Hp Hps].
  destruct (attempt_frame handler path w p i Hp Hi) as [Hcwd Hfs].
  apply IH; [|done]. by rewrite (resolve_cwd _ _ Hcwd).
Qed.

End Frame.

Lemma other_files_untouched_witness :
  fs (compress_and_replace Sample.size Sample.gzip4 "/data/a.h5" Sample.world0).2
    !! "/data/c.h5" = Some {| st_size := 800; st_node := Regular (Some Sample.root_c) |}.
Proof.
  assert ("/data/c.h5" <> resolve Sample.world0 "/data/a.h5") as H1
    by (vm_compute; discriminate).
  assert (fs Sample.world0 !! "/data/c.h5" =
            Some {| st_size := 800; st_node := Regular (Some Sample.root_c) |}) as H2
    by (vm_compute; reflexivity).
  exact (other_files_untouched Sample.size Sample.gzip4 "/data/a.h5" Sample.world0 _ _
           "/data/c.h5" _ (surjective_pairing _) H1 H2).
Defined.

Lemma batch_touches_only_matching_witness :
  fs (compress_existing Sample.size Sample.gzip4 [("/data", [], ["a.h5"; "notes.txt"])]
        Sample.world0).2
    !! "/data/c.h5" = Some {| st_size := 800; st_node := Regular (Some Sample.root_c) |}.
Proof.
  assert ("/data/c.h5" ∉ map (resolve Sample.world0)
            (matching [("/data", [], ["a.h5"; "notes.txt"])])) as H1.
  { vm_compute. intros H. apply list_elem_of_singleton in H. discriminate H. }
  assert (fs Sample.world0 !! "/data/c.h5" =
            Some {| st_size := 800; st_node := Regular (Some Sample.root_c) |}) as H2
    by (vm_compute; reflexivity).
  exact (batch_touches_only_matching Sample.size Sample.gzip4 _ Sample.world0
           "/data/c.h5" _ H1 H2).
Defined.

(** * Facts about the Python values *)

Module PyFacts.
Import StrFacts.

Lemma length_app (a b : string) :
  String.length (a +:+ b) = (String.length a + String.length b)%nat.
Proof.
  induction a as [|c a IH]; [done |]. rewrite app_cons. cbn [String.length]. by rewrite IH.
Qed.

Lemma length_zeros (n : nat) : String.length (Py.zeros n) = n.
Proof. induction n as [|n IH]; [done |]. cbn. by rewrite IH. Qed.

Lemma to_uint_nonnil (n : nat) : Nat.to_uint n <> Decimal.Nil.
Proof.
  rewrite <- (DecimalNat.Unsigned.of_to n) at 1.
  rewrite DecimalNat.Unsigned.to_of. apply DecimalFacts.unorm_nonnil.
Qed.

Lemma str_nat_alt (n : nat) :
  Py.str_nat n = DecimalString.NilEmpty.string_of_uint (Nat.to_uint n).
Proof.
  unfold Py.str_nat, DecimalString.NilZero.string_of_uint.
  pose proof (to_uint_nonnil n). by destruct (Nat.to_uint n).
Qed.

Lemma length_string_of_uint (d : Decimal.uint) :
  String.length (DecimalString.NilEmpty.string_of_uint d) = Decimal.nb_digits d.
Proof. induction d; cbn; congruence. Qed.

Lemma nb_digits_succ (d : Decimal.uint) :
  (Decimal.nb_digits d <= Decimal.nb_digits (Decimal.Little.succ d))%nat.
Proof. induction d; cbn; lia. Qed.

Lemma length_str_nat (n : nat) :
  String.length (Py.str_nat n) = Decimal.nb_digits (DecimalNat.Unsigned.to_lu n).
Proof.
  rewrite str_nat_alt, length_string_of_uint, DecimalNat.Unsigned.to_uint_alt.
  apply DecimalFacts.nb_digits_rev.
Qed.

(** A larger number does not have fewer digits. *)
Lemma length_str_nat_mono (n m : nat) :
  (n <= m)%nat -> (String.length (Py.str_nat n) <= String.length (Py.str_nat m))%nat.
Proof.
  rewrite !length_str_nat. induction 1 as [|m Hle IH]; [done |].
  rewrite DecimalNat.Unsigned.to_lu_succ.
  etrans; [exact IH | apply nb_digits_succ].
Qed.

Lemma str_nat_nonempty (n : nat) : (0 < String.length (Py.str_nat n))%nat.
Proof.
  rewrite str_nat_alt, length_string_of_uint.
  pose proof (to_uint_nonnil n). destruct (Nat.to_uint n); cbn; [done | lia..].
Qed.

Lemma digits_string_of_uint (d : Decimal.uint) :
  digits_only (DecimalString.NilEmpty.string_of_uint d) = true.
Proof. induction d; cbn [DecimalString.NilEmpty.string_of_uint digits_only]; [done |..]; by rewrite IHd. Qed.

Lemma digits_str_nat (n : nat) : digits_only (Py.str_nat n) = true.
Proof. rewrite str_nat_alt. apply digits_string_of_uint. Qed.

Lemma digits_zeros (n : nat) : digits_only (Py.zeros n) = true.
Proof. induction n as [|n IH]; [done |]. cbn [Py.zeros digits_only]. by rewrite IH. Qed.

Lemma digits_app (a b : string) :
  digits_only (a +:+ b) = digits_only a && digits_only b.
Proof.
  induction a as [|c a IH]; [done |]. rewrite app_cons. cbn [digits_only].
  rewrite IH. by rewrite andb_assoc.
Qed.

Lemma digits_sep_free (s : string) : digits_only s = true -> Str.sep_free s = true.
Proof.
  induction s as [|c s IH]; [done |]. cbn [digits_only Str.sep_free].
  intros [Hc Hs]%andb_true_iff. rewrite (IH Hs), andb_true_r.
  apply negb_true_iff.
  destruct (Ascii.eqb_spec c Str.sep) as [->|]; [|done]. discriminate Hc.
Qed.

(** Padding a numeral: zeros in front, up to the width. *)
Lemma zfill_digits (s : string) (width : nat) :
  digits_only s = true -> s <> "" ->
  Py.zfill s width = Py.zeros (width - String.length s) +:+ s.
Proof.
  intros Hd Hs. unfold Py.zfill. cbn zeta.
  destruct (Nat.leb_spec width (String.length s)) as [Hle|Hlt].
  - by replace (width - String.length s)%nat with 0%nat by lia.
  - destruct s as [|c r]; [done |].
    cbn [digits_only] in Hd. apply andb_true_iff in Hd as [Hc _].
    destruct (Ascii.eqb_spec c "+") as [->|]; [discriminate Hc |].
    destruct (Ascii.eqb_spec c "-") as [->|]; [discriminate Hc | done].
Qed.

Lemma zfill_str_nat (i width : nat) :
  Py.zfill (Py.str_nat i) width =
    Py.zeros (width - String.length (Py.str_nat i)) +:+ Py.str_nat i.
Proof.
  apply zfill_digits; [apply digits_str_nat |].
  pose proof (str_nat_nonempty i) as H. intros E. rewrite E in H. cbn in H. lia.
Qed.

Lemma zeros_iter (k : nat) (d : Decimal.uint) :
  Py.zeros k +:+ DecimalString.NilEmpty.string_of_uint d =
    DecimalString.NilEmpty.string_of_uint (Nat.iter k Decimal.D0 d).
Proof.
  induction k as [|k IH]; [done |]. cbn [Py.zeros Nat.iter].
  rewrite app_cons, IH. done.
Qed.

Lemma of_uint_iter_D0 (k : nat) (d : Decimal.uint) :
  Nat.of_uint (Nat.iter k Decimal.D0 d) = Nat.of_uint d.
Proof.
  rewrite <- DecimalNat.Unsigned.of_uint_norm, DecimalFacts.unorm_iter_D0.
  apply DecimalNat.Unsigned.of_uint_norm.
Qed.

(** Reading a padded numeral gives the number back. *)
Lemma int_of_zfill (i width : nat) :
  int_of_digits (Py.zfill (Py.str_nat i) width) = Some i.
Proof.
  rewrite zfill_str_nat, str_nat_alt, zeros_iter. unfold int_of_digits.
  rewrite DecimalString.NilEmpty.usu, of_uint_iter_D0.
  by rewrite DecimalNat.Unsigned.of_to.
Qed.

Lemma length_zfill (i width : nat) :
  String.length (Py.zfill (Py.str_nat i) width) =
    Nat.max width (String.length (Py.str_nat i)).
Proof. rewrite zfill_str_nat, length_app, length_zeros. lia. Qed.

Lemma str_of_nat (i : nat) : Py.str (Z.of_nat i) = Py.str_nat i.
Proof.
  unfold Py.str. rewrite <- (Nat2Z.id i) at 2. by destruct (Z.of_nat i) eqn:E; [..| lia].
Qed.

End PyFacts.

(** * Facts about the element tree *)

Module XmlFacts.
Import Xml.

Lemma element_ind' (P : element -> Prop) :
  (forall t a x tl cs, Forall P cs -> P (Element t a x tl cs)) ->
  forall e, P e.
Proof.
  intros H. fix IH 1. intros [t a x tl cs]. apply H.
  induction cs as [|c cs IHcs]; constructor; [apply IH | exact IHcs].
Qed.

Lemma children_set_children (cs : list element) (e : element) :
  children (set_children cs e) = cs.
Proof. by destruct e. Qed.

Lemma set_children_twice (cs cs' : list element) (e : element) :
  set_children cs (set_children cs' e) = set_children cs e.
Proof. by destruct e. Qed.

Lemma set_text_twice (v v' : string) (e : element) :
  set_text v (set_text v' e) = set_text v e.
Proof. by destruct e. Qed.

Lemma tag_set_text (v : string) (e : element) : tag (set_text v e) = tag e.
Proof. by destruct e. Qed.

Lemma update_at_app (loc loc' : list nat) (f : element -> option element)
    (e : element) :
  update_at (loc ++ loc') f e = update_at loc (update_at loc' f) e.
Proof.
  revert e. induction loc as [|i loc IH]; intros e; [done |].
  cbn [app update_at]. destruct (children e !! i) as [c|]; [|done]. by rewrite IH.
Qed.

Lemma update_at_ext (loc : list nat) (f g : element -> option element)
    (e : element) :
  (forall x, f x = g x) -> update_at loc f e = update_at loc g e.
Proof.
  intros Hfg. revert e. induction loc as [|i loc IH]; intros e; [apply Hfg |].
  cbn [update_at]. destruct (children e !! i) as [c|]; [|done]. by rewrite IH.
Qed.

(** Two changes at the same place, one after the other, are one change. *)
Lemma update_at_twice (loc : list nat) (f g : element -> option element)
    (e : element) :
  match update_at loc f e with
  | Some e' => update_at loc g e'
  | None => None
  end =
  update_at loc (fun x => match f x with Some y => g y | None => None end) e.
Proof.
  revert e. induction loc as [|i loc IH]; intros e; [done |].
  cbn [update_at]. destruct (children e !! i) as [c|] eqn:Hc; [|done].
  rewrite <- IH. destruct (update_at loc f c) as [c'|]; [|done].
  cbn [update_at]. rewrite children_set_children.
  rewrite list_lookup_insert_eq by (by eapply lookup_lt_Some).
  destruct (update_at loc g c') as [c''|]; [|done].
  by rewrite list_insert_insert_eq, set_children_twice.
Qed.

Lemma update_at_Some (loc : list nat) (f : element -> option element)
    (e e' : element) :
  update_at loc f e = Some e' ->
  exists x y, get_at loc e = Some x /\ f x = Some y /\ get_at loc e' = Some y.
Proof.
  revert e e'. induction loc as [|i loc IH]; intros e e'; cbn [update_at get_at].
  - intros Hf. by exists e, e'.
  - destruct (children e !! i) as [c|] eqn:Hc; [|done].
    destruct (update_at loc f c) as [c'|] eqn:Hu; [|done]. intros [= <-].
    destruct (IH _ _ Hu) as (x & y & Hx & Hy & Hy'). exists x, y.
    rewrite children_set_children.
    by rewrite list_lookup_insert_eq by (by eapply lookup_lt_Some).
Qed.

Lemma update_at_defined (loc : list nat) (f : element -> option element)
    (e x : element) :
  get_at loc e = Some x -> is_Some (f x) -> is_Some (update_at loc f e).
Proof.
  revert e. induction loc as [|i loc IH]; intros e; cbn [update_at get_at].
  - by intros [= ->].
  - destruct (children e !! i) as [c|]; [|done]. intros Hx Hf.
    destruct (IH c Hx Hf) as [c' ->]. by eexists.
Qed.

(** The elements below an element, child by child. *)
Lemma descendants_children (t : string) (a : list (string * string))
    (x tl : option string) (cs : list element) :
  descendants (Element t a x tl cs) =
    mjoin (imap (fun i c =>
      ([i], c) :: map (fun d => (i :: d.1, d.2)) (descendants c)) cs).
Proof.
  cbn [descendants].
  match goal with |- ?f 0%nat cs = _ => set (below := f) end.
  change (below 0%nat cs =
    mjoin (imap (fun i c => ([(0 + i)%nat], c) ::
               map (fun d => ((0 + i)%nat :: d.1, d.2)) (descendants c)) cs)).
  generalize 0%nat. induction cs as [|c cs IH]; intros n; [done |].
  cbn [below imap mjoin list_join]. fold below. rewrite IH, Nat.add_0_r.
  cbn [app]. do 3 f_equal. apply imap_ext. intros i y _. cbn.
  by rewrite Nat.add_succ_r.
Qed.

(** The indices listed with an element lead to it. *)
Lemma descendants_get_at (e : element) (p : list nat) (d : element) :
  (p, d) ∈ descendants e -> get_at p e = Some d.
Proof.
  revert p d. induction e as [t a x tl cs IH] using element_ind'. intros p d.
  rewrite descendants_children. intros Hin.
  apply list_elem_of_join in Hin as (l & Hd & Hl).
  apply elem_of_lookup_imap in Hl as (i & c & -> & Hc).
  rewrite Forall_lookup in IH. specialize (IH i c Hc).
  apply elem_of_cons in Hd as [[= -> ->]|Hd].
  - cbn [get_at children]. by rewrite Hc.
  - apply list_elem_of_fmap in Hd as ([p' d'] & [= -> ->] & Hd).
    cbn [get_at children]. rewrite Hc. by apply IH.
Qed.

Lemma find_descendant_Some (t key value : string) (e : element)
    (p : list nat) (d : element) :
  find_descendant t key value e = Some (p, d) ->
  get_at p e = Some d /\ tag d = t /\ get key (attrib d) = Some value.
Proof.
  unfold find_descendant. intros Hf. apply List.find_some in Hf as [Hin Hok].
  apply list_elem_of_In in Hin. cbn [fst snd] in Hok.
  apply andb_true_iff in Hok as [Ht Hv].
  apply String.eqb_eq in Ht. apply bool_decide_eq_true in Hv.
  split; [by apply descendants_get_at | done].
Qed.

Lemma find_child_from_Some (i : nat) (t : string) (cs : list element)
    (k : nat) (c : element) :
  find_child_from i t cs = Some (k, c) ->
  (i <= k)%nat /\ cs !! (k - i)%nat = Some c /\ tag c = t.
Proof.
  revert i. induction cs as [|c0 cs IH]; intros i; cbn [find_child_from]; [done |].
  destruct (String.eqb_spec (tag c0) t) as [Ht|_].
  - intros [= -> ->]. by rewrite Nat.sub_diag.
  - intros Hf. destruct (IH _ Hf) as (Hle & Hc & Htag).
    split; [lia |]. split; [|done].
    replace (k - i)%nat with (S (k - S i)) by lia. done.
Qed.

Lemma find_child_Some (t : string) (e : element) (k : nat) (c : element) :
  find_child t e = Some (k, c) -> children e !! k = Some c /\ tag c = t.
Proof.
  intros Hf. apply find_child_from_Some in Hf as (_ & Hc & Ht).
  by rewrite Nat.sub_0_r in Hc.
Qed.

End XmlFacts.

(** * Facts about [rml.py] *)

Module RmlFacts.
Import StrFacts PathFacts PyFacts XmlFacts.

Section Script.

Variable F : Type.
Variable parse_float : string -> option F.
Variable format_float : F -> string.
Variable minus_one plus_one : F -> F.
Variable uniform : nat -> F -> F -> F.


Lemma assign_text_run (wp : list nat) (j : nat) (v : string) (s : Rml.state F) :
  Rml.assign_text wp j v s =
    match Xml.update_at wp (set_nth_text j v) (Rml.doc s) with
    | Some d => (inr tt, with_doc d s)
    | None => (inl Rml.IndexError, s)
    end.
Proof. unfold Rml.assign_text. by rewrite update_at_app. Qed.

Lemma retext_assigns (x y z : F) (e : Xml.element) :
  retext format_float (x, y, z) e =
    match set_nth_text 0 (format_float x) e with
    | Some e1 =>
        match set_nth_text 1 (format_float y) e1 with
        | Some e2 => set_nth_text 2 (format_float z) e2
        | None => None
        end
    | None => None
    end.
Proof. destruct e as [t a tx tl [|c0 [|c1 [|c2 rest]]]]; reflexivity. Qed.

(** The three assignments of an iteration put the sample at [wp]. *)
Lemma assign3 {A} (wp : list nat) (x y z : F) (s : Rml.state F) (d : Xml.element)
    (k : unit -> Rml.R F A) :
  positioned format_float wp (x, y, z) (Rml.doc s) = Some d ->
  Rml.bind (Rml.assign_text wp 0 (format_float x)) (fun _ =>
  Rml.bind (Rml.assign_text wp 1 (format_float y)) (fun _ =>
  Rml.bind (Rml.assign_text wp 2 (format_float z)) k)) s = k tt (with_doc d s).
Proof.
  unfold positioned.
  rewrite (update_at_ext _ _ _ _ (retext_assigns x y z)).
  rewrite <- (update_at_twice wp (set_nth_text 0 (format_float x))
    (fun e1 => match set_nth_text 1 (format_float y) e1 with
               | Some e2 => set_nth_text 2 (format_float z) e2
               | None => None
               end)).
  destruct (Xml.update_at wp (set_nth_text 0 _) (Rml.doc s)) as [d0|] eqn:H0; [|done].
  rewrite <- (update_at_twice wp (set_nth_text 1 (format_float y))
    (set_nth_text 2 (format_float z))).
  destruct (Xml.update_at wp (set_nth_text 1 _) d0) as [d1|] eqn:H1; [|done].
  intros H2. unfold Rml.bind at 1. rewrite assign_text_run, H0.
  unfold Rml.bind at 1. rewrite assign_text_run. cbn [with_doc Rml.doc]. rewrite H1.
  unfold Rml.bind at 1. rewrite assign_text_run. cbn [with_doc Rml.doc]. rewrite H2.
  done.
Qed.

Lemma retext_overwrite (samp samp' : F * F * F) (e : Xml.element) :
  match retext format_float samp e with
  | Some e' => retext format_float samp' e'
  | None => None
  end = retext format_float samp' e.
Proof.
  destruct samp as [[x y] z], samp' as [[x' y'] z'].
  destruct e as [t a tx tl [|c0 [|c1 [|c2 rest]]]]; try reflexivity.
  cbn. by rewrite !set_text_twice.
Qed.

(** A sample put at [wp] does not depend on the sample that was there. *)
Lemma positioned_overwrite (wp : list nat) (samp samp' : F * F * F)
    (d d' : Xml.element) :
  positioned format_float wp samp d = Some d' ->
  positioned format_float wp samp' d' = positioned format_float wp samp' d.
Proof.
  unfold positioned. intros H.
  rewrite <- (update_at_ext _ _ _ d (retext_overwrite samp samp')).
  by rewrite <- update_at_twice, H.
Qed.

Lemma positioned_defined (wp : list nat) (d e : Xml.element) (samp : F * F * F) :
  Xml.get_at wp d = Some e -> (3 <= length (Xml.children e))%nat ->
  is_Some (positioned format_float wp samp d).
Proof.
  intros He Hlen. apply (update_at_defined _ _ _ e He).
  destruct samp as [[x y] z]. unfold retext.
  destruct (Xml.children e) as [|c0 [|c1 [|c2 rest]]]; cbn in Hlen; try lia.
  by eexists.
Qed.

(** The loop of [save_samples], run from a tree that is [doc0] up to
    the coordinates. *)
Lemma save_loop_run (doc0 : Xml.element) (wp : list nat)
    (out_dir inp_name : string) (n_subdirs : Z) (count : nat)
    (rest : list (F * F * F)) (i : nat) (s : Rml.state F) :
  (forall samp, is_Some (positioned format_float wp samp doc0)) ->
  (forall samp, positioned format_float wp samp (Rml.doc s) = positioned format_float wp samp doc0) ->
  Rml.save_loop format_float wp out_dir inp_name n_subdirs count (width_of count) i rest s =
    (inr tt,
     {| Rml.doc := final_doc format_float doc0 wp (Rml.doc s) rest;
        Rml.drawn := Rml.drawn s;
        Rml.ops := Rml.ops s
                   ++ loop_ops format_float doc0 wp out_dir inp_name n_subdirs count i rest |}).
Proof.
  intros Hdef. revert i s. induction rest as [|[[x y] z] rest IH]; intros i s Hs.
  - cbn. rewrite app_nil_r. by destruct s.
  - cbn [Rml.save_loop loop_ops final_doc fold_left].
    destruct (Hdef (x, y, z)) as [d Hd].
    rewrite (assign3 wp x y z s d) by (by rewrite Hs).
    fold (subdir_path out_dir n_subdirs count i).
    fold (saved_path out_dir inp_name n_subdirs count i).
    rewrite Hd. cbn [default from_option].
    unfold Rml.bind at 1. cbn [Rml.perform].
    unfold Rml.bind at 1. unfold Rml.write at 1. cbn [Rml.perform with_doc Rml.doc Rml.drawn Rml.ops].
    assert (forall samp, positioned format_float wp samp d = positioned format_float wp samp doc0) as Hnext.
    { intros samp. rewrite <- Hs in Hd. rewrite (positioned_overwrite _ _ _ _ _ Hd).
      apply Hs. }
    unfold Rml.bind at 1.
    destruct (i mod 1000 =? 0)%nat; cbn [Rml.print Rml.perform Rml.ret
      Rml.doc Rml.drawn Rml.ops].
    + rewrite IH by exact Hnext. cbn [Rml.doc Rml.drawn Rml.ops].
      fold (final_doc format_float doc0 wp d rest). do 2 f_equal.
      by rewrite <- !app_assoc.
    + rewrite IH by exact Hnext. cbn [Rml.doc Rml.drawn Rml.ops].
      fold (final_doc format_float doc0 wp d rest). do 2 f_equal.
      by rewrite <- !app_assoc.
Qed.

End Script.

End RmlFacts.

(** * Facts about the names of the files *)

Module NameFacts.
Import StrFacts PathFacts PyFacts.

Lemma app_inv_suffix (a c b d : string) :
  a +:+ b = c +:+ d -> String.length b = String.length d -> a = c /\ b = d.
Proof.
  revert c. induction a as [|x a IH]; intros [|y c].
  - by rewrite !app_nil_l.
  - rewrite app_nil_l. intros -> Hlen. rewrite app_cons in Hlen.
    cbn [String.length] in Hlen. rewrite length_app in Hlen. lia.
  - rewrite app_nil_l. intros <- Hlen. rewrite app_cons in Hlen.
    cbn [String.length] in Hlen. rewrite length_app in Hlen. lia.
  - rewrite !app_cons. intros [= -> H] Hlen. destruct (IH _ H Hlen) as [-> ->]. done.
Qed.

Lemma app_inv_prefix (a c b d : string) :
  a +:+ b = c +:+ d -> String.length a = String.length c -> a = c /\ b = d.
Proof.
  intros H Hlen. apply app_inv_suffix; [done |].
  apply (f_equal String.length) in H. rewrite !length_app in H. lia.
Qed.

(** [join] puts its second argument last when it is not absolute. *)
Lemma join_suffix (d n : string) :
  Str.startswith n "/" = false -> exists pre, Path.join d n = pre +:+ n.
Proof.
  intros Hn. unfold Path.join. rewrite Hn.
  destruct (String.eqb d "" || Str.endswith d "/").
  - by exists d.
  - exists (d +:+ "/"). by rewrite append_assoc.
Qed.

Lemma width_of_le (count i : nat) :
  (i < count)%nat -> (String.length (Py.str_nat i) <= width_of count)%nat.
Proof.
  intros Hi. unfold width_of.
  replace (Z.of_nat count - 1)%Z with (Z.of_nat (count - 1)) by lia.
  rewrite str_of_nat. apply length_str_nat_mono. lia.
Qed.

(** The number in a file name: as wide as the largest one, and read
    back as the index of the sample. *)
Lemma number_of_sample (count i : nat) :
  (i < count)%nat ->
  let num := Py.zfill (Py.str (Z.of_nat i)) (width_of count) in
  String.length num = width_of count /\ digits_only num = true /\
  int_of_digits num = Some i.
Proof.
  intros Hi. cbn zeta. rewrite str_of_nat.
  pose proof (width_of_le count i Hi). split; [rewrite length_zfill; lia |].
  split; [|apply int_of_zfill].
  by rewrite zfill_str_nat, digits_app, digits_zeros, digits_str_nat.
Qed.

Lemma file_name_relative (i width : nat) (inp_name : string) :
  Str.startswith (Rml.file_name i width inp_name) "/" = false.
Proof.
  unfold Rml.file_name. rewrite str_of_nat, zfill_str_nat.
  pose proof (str_nat_nonempty i) as Hne. pose proof (digits_str_nat i) as Hd.
  destruct (width - String.length (Py.str_nat i))%nat as [|k].
  - cbn [Py.zeros]. rewrite app_nil_l.
    destruct (Py.str_nat i) as [|c r]; [cbn in Hne; lia |].
    rewrite app_cons. cbn [digits_only] in Hd. apply andb_true_iff in Hd as [Hc _].
    cbn [Str.startswith]. destruct (Ascii.eqb_spec "/" c) as [<-|]; [discriminate Hc | done].
  - cbn [Py.zeros]. by rewrite !app_cons.
Qed.

(** Two samples are not saved under the same path. *)
Lemma saved_path_inj (out_dir inp_name : string) (n_subdirs : Z)
    (count i j : nat) :
  (i < count)%nat -> (j < count)%nat ->
  saved_path out_dir inp_name n_subdirs count i =
    saved_path out_dir inp_name n_subdirs count j ->
  i = j.
Proof.
  intros Hi Hj. unfold saved_path.
  destruct (join_suffix (subdir_path out_dir n_subdirs count i) _
              (file_name_relative i (width_of count) inp_name)) as [pi ->].
  destruct (join_suffix (subdir_path out_dir n_subdirs count j) _
              (file_name_relative j (width_of count) inp_name)) as [pj ->].
  destruct (number_of_sample count i Hi) as (Hli & _ & Hni).
  destruct (number_of_sample count j Hj) as (Hlj & _ & Hnj).
  intros Heq. apply app_inv_suffix in Heq as [_ Heq].
  2:{ unfold Rml.file_name. rewrite !length_app. lia. }
  unfold Rml.file_name in Heq. apply app_inv_prefix in Heq as [Heq _]; [|lia].
  rewrite Heq in Hni. congruence.
Qed.

End NameFacts.

(** * Facts about the functions of [rml.py] *)

Module ScriptFacts.
Import StrFacts PathFacts PyFacts XmlFacts RmlFacts NameFacts.

Section Script.

Variable F : Type.
Variable parse_float : string -> option F.
Variable format_float : F -> string.
Variable minus_one plus_one : F -> F.
Variable uniform : nat -> F -> F -> F.

Lemma writes_app (xs ys : list (Rml.op F)) :
  writes (xs ++ ys) = writes xs ++ writes ys.
Proof. unfold writes. apply flat_map_app. Qed.


Lemma writes_loop_ops (doc0 : Xml.element) (wp : list nat)
    (out_dir inp_name : string) (n_subdirs : Z) (count i : nat)
    (rest : list (F * F * F)) :
  writes (loop_ops format_float doc0 wp out_dir inp_name n_subdirs count i rest) =
    imap (fun j samp =>
            (saved_path out_dir inp_name n_subdirs count (i + j),
             default doc0 (positioned format_float wp samp doc0))) rest.
Proof.
  revert i. induction rest as [|samp rest IH]; intros i; [done |].
  cbn [loop_ops imap]. rewrite Nat.add_0_r.
  change (?a :: ?b :: ?l ++ ?r) with ([a; b] ++ l ++ r).
  rewrite !writes_app, IH.
  assert (writes (if (i mod 1000 =? 0)%nat
                  then [Rml.Print (Rml.Saved F i)] else []) = []) as ->
    by (by destruct (_ =? _)%nat).
  cbn. f_equal. apply imap_ext. intros j y _. cbn. by rewrite Nat.add_succ_r.
Qed.



(** [save_samples], when the element [wp_elem] is there with its three
    children. *)
Lemma save_samples_run (wp : list nat) (samples : list (F * F * F))
    (out_dir inp_name : string) (n_subdirs : Z) (s : Rml.state F)
    (e : Xml.element) :
  Xml.get_at wp (Rml.doc s) = Some e -> (3 <= length (Xml.children e))%nat ->
  Rml.save_samples format_float wp samples out_dir inp_name n_subdirs s =
    (inr tt,
     {| Rml.doc := final_doc format_float (Rml.doc s) wp (Rml.doc s) samples;
        Rml.drawn := Rml.drawn s;
        Rml.ops := Rml.ops s
          ++ [Rml.Makedirs out_dir; Rml.Print (Rml.Saving F (length samples));
              Rml.Makedirs out_dir;
              Rml.Print (Rml.SavingInto F (length samples) n_subdirs)]
          ++ loop_ops format_float (Rml.doc s) wp out_dir inp_name n_subdirs
               (length samples) 0 samples
          ++ [Rml.Print (Rml.AllDone F)] |}).
Proof.
  intros He Hlen. unfold Rml.save_samples.
  fold (width_of (length samples)).
  unfold Rml.bind at 1. cbn [Rml.perform].
  unfold Rml.bind at 1. cbn [Rml.print Rml.perform Rml.doc Rml.drawn Rml.ops].
  unfold Rml.bind at 1. cbn [Rml.perform Rml.doc Rml.drawn Rml.ops].
  unfold Rml.bind at 1. cbn [Rml.print Rml.perform Rml.doc Rml.drawn Rml.ops].
  unfold Rml.bind at 1.
  rewrite (save_loop_run F format_float (Rml.doc s)).
  - unfold Rml.print, Rml.perform. cbn [Rml.doc Rml.drawn Rml.ops]. do 2 f_equal.
    by rewrite <- !app_assoc.
  - intros samp. by eapply positioned_defined.
  - done.
Qed.

End Script.

End ScriptFacts.

Module ExtractFacts.
Import XmlFacts ScriptFacts.

Section Script.

Variable F : Type.
Variable parse_float : string -> option F.
Variable format_float : F -> string.
Variable minus_one plus_one : F -> F.
Variable uniform : nat -> F -> F -> F.

(** [l[len(l) - 2]]: the item before the last one; the only item of a
    list of one, where the index [-1] counts from the end; an error
    for the empty list. *)
Lemma index_before_last {A} (l : list A) :
  Py.index l (Z.of_nat (length l) - 2) =
    match l with
    | [] => None
    | [x] => Some (0%nat, x)
    | _ => match l !! (length l - 2)%nat with
           | Some x => Some ((length l - 2)%nat, x)
           | None => None
           end
    end.
Proof.
  destruct l as [|x [|y l]]; [done | done |].
  unfold Py.index. cbn zeta.
  set (n := length (x :: y :: l)).
  assert (2 <= n)%nat as Hn by (subst n; cbn; lia).
  destruct (Z.ltb_spec (Z.of_nat n - 2) 0) as [?|_]; [lia |].
  destruct (Z.leb_spec 0 (Z.of_nat n - 2)) as [_|?]; [|lia].
  destruct (Z.ltb_spec (Z.of_nat n - 2) (Z.of_nat n)) as [_|?]; [|lia].
  cbn [andb]. by replace (Z.to_nat (Z.of_nat n - 2)) with (n - 2)%nat by lia.
Qed.

Lemma index_Some {A} (l : list A) (k : nat) (x : A) :
  Py.index l (Z.of_nat (length l) - 2) = Some (k, x) ->
  l !! k = Some x /\ k = (if (length l =? 1)%nat then 0 else length l - 2)%nat.
Proof.
  rewrite index_before_last. destruct l as [|a [|b l]]; [done | by intros [= <- <-] |].
  destruct (_ !! _) as [y|] eqn:Hy; [|done]. by intros [= <- <-].
Qed.

Lemma index_None {A} (l : list A) :
  Py.index l (Z.of_nat (length l) - 2) = None <-> l = [].
Proof.
  rewrite index_before_last. destruct l as [|a [|b l]]; [done | done |].
  destruct (_ !! _) as [y|] eqn:Hy; [done |].
  apply lookup_ge_None in Hy. cbn in Hy. lia.
Qed.

Lemma to_float_error (t : Xml.element) (e : Rml.error) :
  Rml.to_float parse_float t = inl e -> e = Rml.TypeError \/ e = Rml.ValueError.
Proof.
  unfold Rml.to_float. destruct (Xml.text t) as [v|]; [|intros [= <-]; by left].
  destruct (parse_float v); [done | intros [= <-]; by right].
Qed.

Lemma unpack3_error (items : list Xml.element) (e : Rml.error) :
  Rml.unpack3 parse_float items = inl e -> e = Rml.TypeError \/ e = Rml.ValueError.
Proof.
  unfold Rml.unpack3.
  destruct items as [|a [|b [|c [|d rest]]]];
    repeat match goal with
    | |- context [Rml.to_float parse_float ?t] =>
        let H := fresh "H" in
        destruct (Rml.to_float parse_float t) eqn:H;
        [apply to_float_error in H |]
    end; intros [= <-]; auto.
Qed.

Lemma unpack3_ok (items : list Xml.element) (x y z : F) :
  Rml.unpack3 parse_float items = inr (x, y, z) ->
  exists c0 c1 c2, items = [c0; c1; c2] /\
    Rml.to_float parse_float c0 = inr x /\
    Rml.to_float parse_float c1 = inr y /\
    Rml.to_float parse_float c2 = inr z.
Proof.
  unfold Rml.unpack3.
  destruct items as [|a [|b [|c [|d rest]]]];
    repeat match goal with
    | |- context [Rml.to_float parse_float ?t] =>
        let H := fresh "H" in
        destruct (Rml.to_float parse_float t) eqn:H
    end; intros [= <- <- <-]. by exists a, b, c.
Qed.

(** [extract_world_position] looks at the tree only, and only prints. *)
Lemma extract_frame (d : Xml.element) :
  exists r prints,
    writes prints = [] /\ makedirs prints = [] /\
    forall s : Rml.state F, Rml.doc s = d ->
      Rml.extract_world_position parse_float s =
        (r, {| Rml.doc := Rml.doc s; Rml.drawn := Rml.drawn s;
               Rml.ops := Rml.ops s ++ prints |}).
Proof.
  unfold Rml.extract_world_position, Rml.bind, Rml.print, Rml.perform, Rml.raise,
    Rml.ret.
  destruct (Xml.find_child "beamline" d) as [[b beam]|] eqn:Hb.
  2:{ eexists _, [_]. split_and!; cycle 2.
      { intros s ->. cbn [Rml.doc Rml.drawn Rml.ops]. by rewrite Hb. }
      all: done. }
  destruct (Py.index (Xml.children beam) (Z.of_nat (length (Xml.children beam)) - 2))
    as [[k elem]|] eqn:Hk.
  2:{ eexists _, [_; _]. split_and!; cycle 2.
      { intros s ->. cbn [Rml.doc Rml.drawn Rml.ops]. rewrite Hb.
        cbn [Rml.doc Rml.drawn Rml.ops]. rewrite Hk. by rewrite <- app_assoc. }
      all: done. }
  destruct (Xml.find_descendant "param" "id" "worldPosition" elem) as [[rel wp]|] eqn:Hw.
  2:{ eexists _, [_; _; _]. split_and!; cycle 2.
      { intros s ->. cbn [Rml.doc Rml.drawn Rml.ops]. rewrite Hb.
        cbn [Rml.doc Rml.drawn Rml.ops]. rewrite Hk.
        cbn [Rml.doc Rml.drawn Rml.ops]. rewrite Hw. by rewrite <- !app_assoc. }
      all: done. }
  destruct (Rml.unpack3 parse_float (Xml.children wp)) as [e|[[x y] z]] eqn:Hu.
  - eexists _, [_; _; _]. split_and!; cycle 2.
    { intros s ->. cbn [Rml.doc Rml.drawn Rml.ops]. rewrite Hb.
      cbn [Rml.doc Rml.drawn Rml.ops]. rewrite Hk.
      cbn [Rml.doc Rml.drawn Rml.ops]. rewrite Hw, Hu. by rewrite <- !app_assoc. }
    all: done.
  - eexists _, [_; _; _; _]. split_and!; cycle 2.
    { intros s ->. cbn [Rml.doc Rml.drawn Rml.ops]. rewrite Hb.
      cbn [Rml.doc Rml.drawn Rml.ops]. rewrite Hk.
      cbn [Rml.doc Rml.drawn Rml.ops]. rewrite Hw, Hu.
      cbn [Rml.doc Rml.drawn Rml.ops]. by rewrite <- !app_assoc. }
    all: done.
Qed.

(** What a successful [extract_world_position] has found. *)
Lemma extract_found (s s' : Rml.state F) (loc : list nat) (x y z : F) (idx : Z) :
  Rml.extract_world_position parse_float s = (inr (loc, (x, y, z), idx), s') ->
  exists b beam k elem rel wp c0 c1 c2,
    loc = b :: k :: rel /\
    Xml.find_child "beamline" (Rml.doc s) = Some (b, beam) /\
    idx = (Z.of_nat (length (Xml.children beam)) - 2)%Z /\
    Xml.children beam !! k = Some elem /\
    k = (if (length (Xml.children beam) =? 1)%nat then 0
         else length (Xml.children beam) - 2)%nat /\
    Xml.find_descendant "param" "id" "worldPosition" elem = Some (rel, wp) /\
    Xml.children wp = [c0; c1; c2] /\
    Rml.to_float parse_float c0 = inr x /\
    Rml.to_float parse_float c1 = inr y /\
    Rml.to_float parse_float c2 = inr z.
Proof.
  unfold Rml.extract_world_position, Rml.bind, Rml.print, Rml.perform, Rml.raise,
    Rml.ret.
  cbn [Rml.doc Rml.drawn Rml.ops].
  destruct (Xml.find_child "beamline" (Rml.doc s)) as [[b beam]|] eqn:Hb; [|done].
  cbn [Rml.doc Rml.drawn Rml.ops].
  destruct (Py.index _ _) as [[k elem]|] eqn:Hk; [|done].
  cbn [Rml.doc Rml.drawn Rml.ops].
  destruct (Xml.find_descendant _ _ _ elem) as [[rel wp]|] eqn:Hw; [|done].
  destruct (Rml.unpack3 parse_float (Xml.children wp)) as [e|[[x' y'] z']] eqn:Hu; [done |].
  intros [= <- <- <- <- <- _].
  apply index_Some in Hk as [Hk Hkn].
  apply unpack3_ok in Hu as (c0 & c1 & c2 & Hcs & H0 & H1 & H2).
  by exists b, beam, k, elem, rel, wp, c0, c1, c2.
Qed.


Lemma sample_loop_run (count : nat) (coords : F * F * F)
    (samples : list (F * F * F)) (s : Rml.state F) :
  Rml.sample_loop minus_one plus_one uniform count coords samples s =
    (inr (samples ++ map (fun i => sample_at minus_one plus_one uniform coords
                                     (Rml.drawn s + 3 * i)) (seq 0 count)),
     {| Rml.doc := Rml.doc s; Rml.drawn := Rml.drawn s + 3 * count;
        Rml.ops := Rml.ops s |}).
Proof.
  revert samples s. induction count as [|count IH]; intros samples s.
  - cbn. rewrite app_nil_r, Nat.add_0_r. by destruct s.
  - cbn [Rml.sample_loop]. unfold Rml.bind at 1, Rml.draw_point at 1.
    destruct coords as [[x y] z]. rewrite IH. cbn [Rml.doc Rml.drawn Rml.ops].
    rewrite <- app_assoc. cbn [seq map app]. rewrite <- seq_shift, map_map.
    rewrite Nat.mul_0_r, Nat.add_0_r. f_equal.
    + do 3 f_equal. apply map_ext. intros i. f_equal. lia.
    + f_equal. lia.
Qed.

Lemma generate_samples_run (coords : F * F * F) (n : Z) (s : Rml.state F) :
  exists prints,
    writes prints = [] /\ makedirs prints = [] /\
    Rml.generate_samples minus_one plus_one uniform coords n s =
      (inr (map (fun i => sample_at minus_one plus_one uniform coords
                            (Rml.drawn s + 3 * i)) (seq 0 (Z.to_nat n))),
       {| Rml.doc := Rml.doc s; Rml.drawn := Rml.drawn s + 3 * Z.to_nat n;
          Rml.ops := Rml.ops s ++ prints |}).
Proof.
  unfold Rml.generate_samples. unfold Rml.bind at 1. cbn [Rml.print Rml.perform].
  unfold Rml.bind at 1. rewrite sample_loop_run. cbn [Rml.doc Rml.drawn Rml.ops app].
  destruct coords as [[x y] z]. unfold Rml.bind, Rml.print, Rml.perform, Rml.ret.
  cbn [Rml.doc Rml.drawn Rml.ops].
  eexists [_; _; _]. split_and!; cycle 2.
  { by rewrite <- !app_assoc. }
  all: done.
Qed.

End Script.

End ExtractFacts.

Module SubdirFacts.

Lemma subdir_idx_bounds (i count : nat) (n_subdirs : Z) :
  (1 <= n_subdirs)%Z -> (i < count)%nat ->
  (0 <= Rml.subdir_idx i n_subdirs count < n_subdirs)%Z.
Proof.
  intros Hn Hi. unfold Rml.subdir_idx. split.
  - apply Z.div_pos; nia.
  - apply Z.div_lt_upper_bound; nia.
Qed.

Lemma subdir_idx_mono (i j count : nat) (n_subdirs : Z) :
  (0 <= n_subdirs)%Z -> (0 < count)%nat -> (i <= j)%nat ->
  (Rml.subdir_idx i n_subdirs count <= Rml.subdir_idx j n_subdirs count)%Z.
Proof.
  intros Hn Hc Hij. unfold Rml.subdir_idx. apply Z.div_le_mono; nia.
Qed.

End SubdirFacts.

(** * Properties of [rml.py] *)

Section Perturbation.

Variable F : Type.
Variable parse_float : string -> option F.
Variable format_float : F -> string.
Variable minus_one plus_one : F -> F.
Variable uniform : nat -> F -> F -> F.

Import StrFacts PathFacts PyFacts XmlFacts RmlFacts NameFacts ScriptFacts
  ExtractFacts SubdirFacts.

(** X8: what [extract_world_position] returns: the element it hands
    out is a [param] with the id [worldPosition] and exactly three
    children, below the element of the [beamline] before the last one
    (below the only element, where there is one: the index [-1] counts
    from the end); the coordinates are the texts of the three children
    as floats; the tree is as it was. *)
Theorem extract_world_position_sound (s s' : Rml.state F) (loc : list nat)
    (x y z : F) (idx : Z) :
  Rml.extract_world_position parse_float s = (inr (loc, (x, y, z), idx), s') ->
  Rml.doc s' = Rml.doc s /\
  exists b beam k rel wp c0 c1 c2,
    loc = b :: k :: rel /\
    Xml.children (Rml.doc s) !! b = Some beam /\ Xml.tag beam = "beamline" /\
    idx = (Z.of_nat (length (Xml.children beam)) - 2)%Z /\
    k = (if (length (Xml.children beam) =? 1)%nat then 0
         else length (Xml.children beam) - 2)%nat /\
    Xml.get_at loc (Rml.doc s) = Some wp /\
    Xml.tag wp = "param" /\ Xml.get "id" (Xml.attrib wp) = Some "worldPosition" /\
    Xml.children wp = [c0; c1; c2] /\
    Rml.to_float parse_float c0 = inr x /\
    Rml.to_float parse_float c1 = inr y /\
    Rml.to_float parse_float c2 = inr z.
Proof.
  intros Hrun. split.
  - destruct (extract_frame F parse_float (Rml.doc s)) as (r & prints & _ & _ & Hfr).
    rewrite (Hfr s eq_refl) in Hrun. by injection Hrun as _ <-.
  - apply extract_found in Hrun
      as (b & beam & k & elem & rel & wp & c0 & c1 & c2
          & -> & Hb & -> & Hk & Hkn & Hw & Hcs & H0 & H1 & H2).
    apply find_child_Some in Hb as [Hb Hbt].
    apply find_descendant_Some in Hw as (Hw & Hwt & Hwid).
    exists b, beam, k, rel, wp, c0, c1, c2.
    split_and!; try done. cbn [Xml.get_at]. by rewrite Hb, Hk.
Qed.

(** X9: [extract_world_position] raises [IndexError] exactly for a
    [beamline] without elements. *)
Theorem extract_index_error_iff (s : Rml.state F) :
  (Rml.extract_world_position parse_float s).1 = inl Rml.IndexError <->
  exists b beam,
    Xml.find_child "beamline" (Rml.doc s) = Some (b, beam) /\
    Xml.children beam = [].
Proof.
  unfold Rml.extract_world_position, Rml.bind, Rml.print, Rml.perform, Rml.raise,
    Rml.ret.
  cbn [Rml.doc Rml.drawn Rml.ops].
  destruct (Xml.find_child "beamline" (Rml.doc s)) as [[b beam]|] eqn:Hb.
  2:{ split; [done | by intros (? & ? & ? & _)]. }
  cbn [Rml.doc Rml.drawn Rml.ops].
  destruct (Py.index _ _) as [[k elem]|] eqn:Hk.
  2:{ apply index_None in Hk. split; [by exists b, beam | done]. }
  assert (Xml.children beam <> []) as Hne.
  { intros Hnil. apply index_None in Hnil. congruence. }
  cbn [Rml.doc Rml.drawn Rml.ops].
  destruct (Xml.find_descendant _ _ _ elem) as [[rel wp]|] eqn:Hw.
  2:{ split; [done | by intros (? & ? & [= <- <-] & ?)]. }
  destruct (Rml.unpack3 parse_float (Xml.children wp)) as [e|[[x y] z]] eqn:Hu.
  - apply unpack3_error in Hu. split.
    + cbn. intros [= ->]. by destruct Hu.
    + by intros (? & ? & [= <- <-] & ?).
  - split; [done | by intros (? & ? & [= <- <-] & ?)].
Qed.

(** X10: [generate_samples] returns [n] points (none for a negative
    [n]); each coordinate of each point is a fresh draw from the
    interval around the original coordinate, in the order x, y, z; the
    tree is not touched. *)
Theorem generate_samples_draws (coords : F * F * F) (n : Z) (s : Rml.state F) :
  let r := Rml.generate_samples minus_one plus_one uniform coords n s in
  exists samples,
    r.1 = inr samples /\
    length samples = Z.to_nat n /\
    (forall i, (i < Z.to_nat n)%nat ->
       samples !! i =
         Some (sample_at minus_one plus_one uniform coords (Rml.drawn s + 3 * i))) /\
    Rml.doc r.2 = Rml.doc s /\
    Rml.drawn r.2 = (Rml.drawn s + 3 * Z.to_nat n)%nat.
Proof.
  cbn zeta.
  destruct (generate_samples_run F minus_one plus_one uniform coords n s)
    as (prints & _ & _ & ->).
  eexists. split; [reflexivity |]. rewrite length_map, length_seq.
  split; [done |]. split; [|done]. intros i Hi.
  rewrite list_lookup_fmap, lookup_seq_lt by done. done.
Qed.



(** X13: no two samples are written to the same path: no file of a run
    of [save_samples] overwrites another one of that run. *)
Theorem saved_paths_distinct (wp_elem : list nat) (samples : list (F * F * F))
    (out_dir inp_name : string) (n_subdirs : Z) (s : Rml.state F)
    (e : Xml.element) :
  Xml.get_at wp_elem (Rml.doc s) = Some e ->
  (3 <= length (Xml.children e))%nat ->
  let r := Rml.save_samples format_float wp_elem samples out_dir inp_name
             n_subdirs s in
  exists new,
    Rml.ops r.2 = Rml.ops s ++ new /\ NoDup (map fst (writes new)).
Proof.
  intros He Hlen. cbn zeta.
  rewrite (save_samples_run F format_float _ _ _ _ _ _ e He Hlen).
  eexists. split; [reflexivity |].
  rewrite !writes_app, writes_loop_ops. cbn [writes flat_map app].
  rewrite app_nil_r. apply NoDup_alt. intros i j p Hi Hj.
  rewrite list_lookup_fmap, list_lookup_imap in Hi, Hj.
  destruct (samples !! i) as [si|] eqn:Hsi; [|done].
  destruct (samples !! j) as [sj|] eqn:Hsj; [|done].
  cbn in Hi, Hj. injection Hi as <-. injection Hj as Hj.
  apply lookup_lt_Some in Hsi, Hsj. by eapply saved_path_inj.
Qed.

(** X14: the name of the file of sample [i] out of [count]: the number
    [i] in decimal digits, with zeros in front up to the width of
    [count - 1], then [_] and the name of the input file; the number
    read back is [i]. *)
Theorem file_name_number (count i : nat) (inp_name : string) :
  (i < count)%nat ->
  exists num,
    Rml.file_name i (width_of count) inp_name = num +:+ "_" +:+ inp_name /\
    String.length num = width_of count /\
    digits_only num = true /\
    int_of_digits num = Some i.
Proof.
  intros Hi. eexists. split; [reflexivity |]. by apply number_of_sample.
Qed.

(** X15: with at least one subdirectory asked for, the index of the
    subdirectory of a sample is one of [0 .. n_subdirs - 1], and does
    not go down from a sample to a later one. *)
Theorem subdir_idx_range (i count : nat) (n_subdirs : Z) :
  (1 <= n_subdirs)%Z -> (i < count)%nat ->
  (0 <= Rml.subdir_idx i n_subdirs count < n_subdirs)%Z /\
  forall j, (i <= j)%nat ->
    (Rml.subdir_idx i n_subdirs count <= Rml.subdir_idx j n_subdirs count)%Z.
Proof.
  intros Hn Hi. split; [by apply subdir_idx_bounds |].
  intros j Hij. apply subdir_idx_mono; lia.
Qed.

(** X16: with no more subdirectories than samples, every subdirectory
    [0 .. n_subdirs - 1] gets a file. *)
Theorem subdir_idx_onto (count : nat) (n_subdirs k : Z) :
  (1 <= n_subdirs <= Z.of_nat count)%Z -> (0 <= k < n_subdirs)%Z ->
  exists i, (i < count)%nat /\ Rml.subdir_idx i n_subdirs count = k.
Proof.
  intros Hn Hk.
  set (c := Z.of_nat count).
  set (q := ((k * c + n_subdirs - 1) / n_subdirs)%Z).
  assert (n_subdirs * q <= k * c + n_subdirs - 1 < n_subdirs * q + n_subdirs)%Z as Hq.
  { pose proof (Z.mul_div_le (k * c + n_subdirs - 1) n_subdirs ltac:(lia)).
    pose proof (Z.mul_succ_div_gt (k * c + n_subdirs - 1) n_subdirs ltac:(lia)).
    subst q. lia. }
  assert (0 <= q < c)%Z as Hqc by nia.
  exists (Z.to_nat q). split; [lia |].
  unfold Rml.subdir_idx. rewrite Z2Nat.id by lia. fold c.
  symmetry. apply (Z.div_unique_pos _ _ _ (q * n_subdirs - k * c)); nia.
Qed.


End Perturbation.

(** ** The properties of [rml.py] on the sample file *)

Import SampleRml.

Lemma extract_world_position_sound_witness :
  Rml.extract_world_position parse_float state0 =
    (inr (wp_elem, ("1.5", "2", "-3"), 1%Z),
     (Rml.extract_world_position parse_float state0).2) /\
  Rml.doc (Rml.extract_world_position parse_float state0).2 = doc0.
Proof.
  assert (Rml.extract_world_position parse_float state0 =
            (inr (wp_elem, ("1.5", "2", "-3"), 1%Z),
             (Rml.extract_world_position parse_float state0).2)) as H
    by (vm_compute; reflexivity).
  split; [exact H |].
  exact (proj1 (extract_world_position_sound string parse_float state0 _ _ _ _ _ _ H)).
Defined.



Lemma saved_paths_distinct_witness :
  exists new,
    Rml.ops (Rml.save_samples format_float wp_elem samples "out" "a.rml" 2 state0).2 =
      Rml.ops state0 ++ new /\
    NoDup (map fst (writes new)).
Proof.
  assert (Xml.get_at wp_elem (Rml.doc state0) = Some wp0) as H1 by reflexivity.
  assert (3 <= length (Xml.children wp0))%nat as H2 by (vm_compute; lia).
  exact (saved_paths_distinct string format_float wp_elem samples "out" "a.rml" 2
           state0 wp0 H1 H2).
Defined.

Lemma file_name_number_witness :
  exists num,
    Rml.file_name 7 (width_of 1000) "a.rml" = num +:+ "_" +:+ "a.rml" /\
    String.length num = width_of 1000 /\
    digits_only num = true /\
    int_of_digits num = Some 7%nat.
Proof.
  assert (7 < 1000)%nat as H by lia.
  exact (file_name_number 1000 7 "a.rml" H).
Defined.

Lemma subdir_idx_range_witness :
  (0 <= Rml.subdir_idx 2 2 3 < 2)%Z.
Proof.
  assert (1 <= 2)%Z as H1 by lia.
  assert (2 < 3)%nat as H2 by lia.
  exact (proj1 (subdir_idx_range 2 3 2 H1 H2)).
Defined.

Lemma subdir_idx_onto_witness :
  exists i, (i < 3)%nat /\ Rml.subdir_idx i 2 3 = 1%Z.
Proof.
  assert (1 <= 2 <= Z.of_nat 3)%Z as H1 by lia.
  assert (0 <= 1 < 2)%Z as H2 by lia.
  exact (subdir_idx_onto 3 2 1 H1 H2).
Defined.

(** The run of [main] on the sample file: three files in two
    subdirectories, each with its own draws. *)
Example main_on_sample :
  let r := Rml.main parse_float format_float minus_one plus_one uniform args state0 in
  r.1 = inr tt /\
  map (fun '(path, d) => (path, Xml.get_at wp_elem d)) (writes (Rml.ops r.2)) =
    [("out/subdir_0/0_a.rml",
      Some (Xml.Element "param" [("id", "worldPosition")] None None
              [coord "x" "u0"; coord "y" "u1"; coord "z" "u2"]));
     ("out/subdir_0/1_a.rml",
      Some (Xml.Element "param" [("id", "worldPosition")] None None
              [coord "x" "u3"; coord "y" "u4"; coord "z" "u5"]));
     ("out/subdir_1/2_a.rml",
      Some (Xml.Element "param" [("id", "worldPosition")] None None
              [coord "x" "u6"; coord "y" "u7"; coord "z" "u8"]))].
Proof. vm_compute. done. Qed.

(** A beamline of one element: the index is [-1], and the element is
    taken. *)
Example single_element_taken :
  let d := Xml.Element "lab" [] None None [Xml.Element "beamline" [] None None [mirror]] in
  (Rml.extract_world_position parse_float
     {| Rml.doc := d; Rml.drawn := 0; Rml.ops := [] |}).1 =
    inr ([0; 0; 1; 0]%nat, ("1.5", "2", "-3"), (-1)%Z).
Proof. vm_compute. done. Qed.
